(** * GroundControlPointsView: the ground control point panel

    A shallow embedding of [gui/GroundControlPointsView.cxx].  The private
    class [GroundControlPointsViewPrivate] becomes a record [View]; its
    member functions and the slots connected in the constructor and in
    [setHelper] become computations in a small monad that threads the
    [View] and distinguishes a normal return, a propagating C++ exception
    and the dereference of a null pointer. *)

From Stdlib Require Import String Ascii QArith.
From stdpp Require Import base option list gmap strings pretty.

Set Default Proof Using "Type".
Local Open Scope string_scope.
Local Open Scope list_scope.

(** ** Qt and the C++ runtime: what the widget code takes from outside *)

(** [double] and the literal [0.0]. *)
Class Double := {
  double : Type;
  zero : double
}.

(** [QString::number(double, char format, int precision)]. *)
Class QStringNumber `{Double} :=
  QString_number : double → ascii → nat → string.

(** [QStringList::join(QChar)]. *)
Fixpoint join (sep : ascii) (values : list string) : string :=
  match values with
  | [] => ""
  | [v] => v
  | v :: rest => v +:+ String sep (join sep rest)
  end.

(** ** kwiver::vital (namespace [kv]) *)

Module kv.

(** [ground_control_point_id_t] is a 32 bit unsigned integer. *)
Definition id_bits : N := 32.
Abbreviation ground_control_point_id_t := N.

(** [SRID::lat_lon_WGS84]. *)
Definition SRID := Z.
Definition lat_lon_WGS84 : SRID := 4326%Z.

Section Types.
Context `{Double}.

Record vector_2d := Vector2d { x2 : double; y2 : double }.
Record vector_3d := Vector3d { x : double; y : double; z : double }.

(** [geo_point]: default constructed (empty), or built from a 2D or a 3D
    location and the coordinate system it is expressed in. *)
Inductive geo_point :=
| geo_point_empty
| geo_point_2d (loc : vector_2d) (crs : SRID)
| geo_point_3d (loc : vector_3d) (crs : SRID).

Definition is_empty (gl : geo_point) : bool :=
  match gl with geo_point_empty => true | _ => false end.

Definition crs (gl : geo_point) : SRID :=
  match gl with
  | geo_point_empty => (-1)%Z
  | geo_point_2d _ c | geo_point_3d _ c => c
  end.

(** [geo_point::location(int crs)]: the location converted to [crs];
    [None] stands for the exception the geodesy backend raises when it
    cannot convert. *)
Class Geodesy := location : geo_point → SRID → option vector_3d.

Record ground_control_point := GroundControlPoint {
  geo_loc : geo_point;
  elevation : double;
  is_geo_loc_user_provided : bool
}.

(** [set_geo_loc(geo_point const&, double)] and
    [set_geo_loc_user_provided(bool)]. *)
Definition set_geo_loc (gl : geo_point) (elev : double)
    (gcp : ground_control_point) : ground_control_point :=
  {| geo_loc := gl; elevation := elev;
     is_geo_loc_user_provided := is_geo_loc_user_provided gcp |}.

Definition set_geo_loc_user_provided (b : bool)
    (gcp : ground_control_point) : ground_control_point :=
  {| geo_loc := geo_loc gcp; elevation := elevation gcp;
     is_geo_loc_user_provided := b |}.

End Types.

End kv.

Abbreviation id_t := kv.ground_control_point_id_t.

(** [INVALID_POINT = std::numeric_limits<id_t>::max()]. *)
Definition INVALID_POINT : id_t := N.ones kv.id_bits.

(** ** A platform to run the panel on

    Doubles are taken to be rationals, [QString::number] prints them in
    fixed notation rounding half away from zero, and the geodesy backend
    knows WGS84 only: it hands back a WGS84 location as it is and fails on
    every other coordinate system. *)

Module Reference.

Fixpoint zeros (n : nat) : string :=
  match n with
  | O => ""
  | S n => String "0" (zeros n)
  end.

Definition fixed (q : Q) (prec : nat) : string :=
  let scale := (10 ^ Z.of_nat prec)%Z in
  let num := (Z.abs (Qnum q) * scale)%Z in
  let den := Z.pos (Qden q) in
  let r := ((2 * num + den) / (2 * den))%Z in
  let frac := pretty (r mod scale)%Z in
  (if bool_decide (Qnum q < 0 ∧ r ≠ 0)%Z then "-" else "")
  +:+ pretty (r / scale)%Z
  +:+ (match prec with
       | O => ""
       | _ => "." +:+ zeros (prec - String.length frac) +:+ frac
       end).

Definition number (q : Q) (format : ascii) (prec : nat) : string :=
  fixed q prec.

Definition Q_double : Double := {| double := Q; zero := 0%Q |}.

Definition fixed_number : @QStringNumber Q_double := number.

Definition wgs84_only : @kv.Geodesy Q_double := λ gl crs,
  match gl with
  | kv.geo_point_empty => None
  | kv.geo_point_2d (kv.Vector2d a b) c =>
      if decide (c = crs) then Some (kv.Vector3d a b 0%Q) else None
  | kv.geo_point_3d v c =>
      if decide (c = crs) then Some v else None
  end.

End Reference.

Section View.
Context `{D : Double} {F : QStringNumber} {G : kv.Geodesy}.

(** *** Widgets *)

Record QDoubleSpinBox := SpinBox { value : double; isEnabled : bool }.

(** A [QModelIndex] of the one-column list model: a row, or invalid. *)
Definition QModelIndex := option nat.

(** The selection model of [pointsList]: its current index and the
    selected row. *)
Record QItemSelectionModel := SelectionModel {
  currentIndex : QModelIndex;
  selection : QModelIndex
}.

(** [Ui::GroundControlPointsView]; an action is represented by its
    enabled flag. *)
Record Ui := MkUi {
  easting : QDoubleSpinBox;
  northing : QDoubleSpinBox;
  elevation : QDoubleSpinBox;
  actionDelete : bool;
  actionRevert : bool;
  actionCopyLocationLatLon : bool;
  actionCopyLocationLatLonElev : bool;
  actionCopyLocationLonLat : bool;
  actionCopyLocationLonLatElev : bool;
  pointsList : QItemSelectionModel
}.

Inductive Field := Easting | Northing | Elevation.

(** *** Calls that leave the panel, in the order they are made *)

Inductive QDebugItem := QStr (s : string) | QInt (n : Z).

Inductive Call :=
| qWarning (msg : list QDebugItem)
| setValue (f : Field) (v : double)
| select (index : QModelIndex)
| clipboard_setText (text : string)
| model_modifyPoint (id : id_t)
| model_setPointData
| helper_setActivePoint (id : id_t)
| helper_removePoint (id : id_t)
| helper_resetPoint (id : id_t).

(** Modelled from the spec: [GroundControlPointsHelper], whose source is
    not in this file.  It owns the points and answers the query of a
    point by id with the point or with its absence (a null pointer), so
    it is taken as a finite map of points.  The points are shared
    objects: a write through the pointer changes the helper's point. *)
Abbreviation GroundControlPointsHelper := (gmap N kv.ground_control_point).

(** [GroundControlPointsViewPrivate], with the clipboard and the record
    of outgoing calls. *)
Record View := MkView {
  UI : Ui;
  copyLocationButton : bool;
  model : list N;
  helper : option GroundControlPointsHelper;
  currentPoint : id_t;
  clipboard : string;
  calls : list Call
}.

(** *** Control flow: return, exception, null dereference *)

Inductive Outcome (A : Type) :=
| Returned (a : A) (d : View)
| Thrown (d : View)
| Undefined.
Arguments Returned {A} a d.
Arguments Thrown {A} d.
Arguments Undefined {A}.

Definition M (A : Type) : Type := View → Outcome A.

#[local] Instance M_ret : MRet M := λ A a d, Returned a d.
#[local] Instance M_bind : MBind M := λ A B k m d,
  match m d with
  | Returned a d' => k a d'
  | Thrown d' => Thrown d'
  | Undefined => Undefined
  end.

Definition gets {A} (f : View → A) : M A := λ d, Returned (f d) d.
Definition modify (f : View → View) : M unit := λ d, Returned tt (f d).
Definition throw {A} : M A := λ d, Thrown d.
Definition null_dereference {A} : M A := λ _, Undefined.

(** [try { body } catch (...) { handler }]. *)
Definition try_catch {A} (body handler : M A) : M A := λ d,
  match body d with
  | Thrown d' => handler d'
  | o => o
  end.

(** [p->...] on a pointer that may be null. *)
Definition deref {A} (p : option A) : M A :=
  match p with Some a => mret a | None => null_dereference end.

Definition call (c : Call) : M unit :=
  modify (λ d, MkView (UI d) (copyLocationButton d) (model d) (helper d)
                      (currentPoint d) (clipboard d) (calls d ++ [c])).

Definition modifyUi (f : Ui → Ui) : M unit :=
  modify (λ d, MkView (f (UI d)) (copyLocationButton d) (model d)
                      (helper d) (currentPoint d) (clipboard d) (calls d)).


(** *** Writing to the widgets, the clipboard and the shared points *)

Definition setEnabled (b : bool) (w : QDoubleSpinBox) : QDoubleSpinBox :=
  SpinBox (value w) b.

(** [spin->setValue(v)] inside a [qtScopedBlockSignals] scope: the box
    takes the value and [valueChanged] is not emitted.  A spin box is a
    cell that holds the value it was given; the rounding and the range
    Qt applies are set in the form file, outside this source. *)
Definition setValue_blocked (f : Field) (v : double) : M unit :=
  modifyUi (λ ui,
    let put w := SpinBox v (isEnabled w) in
    match f with
    | Easting =>
        MkUi (put (easting ui)) (northing ui) (elevation ui)
             (actionDelete ui) (actionRevert ui)
             (actionCopyLocationLatLon ui) (actionCopyLocationLatLonElev ui)
             (actionCopyLocationLonLat ui) (actionCopyLocationLonLatElev ui)
             (pointsList ui)
    | Northing =>
        MkUi (easting ui) (put (northing ui)) (elevation ui)
             (actionDelete ui) (actionRevert ui)
             (actionCopyLocationLatLon ui) (actionCopyLocationLatLonElev ui)
             (actionCopyLocationLonLat ui) (actionCopyLocationLonLatElev ui)
             (pointsList ui)
    | Elevation =>
        MkUi (easting ui) (northing ui) (put (elevation ui))
             (actionDelete ui) (actionRevert ui)
             (actionCopyLocationLatLon ui) (actionCopyLocationLatLonElev ui)
             (actionCopyLocationLonLat ui) (actionCopyLocationLonLatElev ui)
             (pointsList ui)
    end) ;;
  call (setValue f v).

(** [selectionModel()->select(index, ClearAndSelect | Current | Rows)]:
    the selection becomes the row of [index] (nothing for an invalid
    index).  [select] leaves the current index alone and announces the
    change through [selectionChanged], to which the panel connects no
    slot; [currentChanged] belongs to [setCurrentIndex]. *)
Definition selectionModel_select (index : QModelIndex) : M unit :=
  modifyUi (λ ui,
    MkUi (easting ui) (northing ui) (elevation ui)
         (actionDelete ui) (actionRevert ui)
         (actionCopyLocationLatLon ui) (actionCopyLocationLatLonElev ui)
         (actionCopyLocationLonLat ui) (actionCopyLocationLonLatElev ui)
         (SelectionModel (currentIndex (pointsList ui)) index)) ;;
  call (select index).

(** [QApplication::clipboard()->setText(text)]. *)
Definition clipboard_write (text : string) : M unit :=
  modify (λ d, MkView (UI d) (copyLocationButton d) (model d) (helper d)
                      (currentPoint d) text (calls d)) ;;
  call (clipboard_setText text).

Definition set_currentPoint (id : id_t) : M unit :=
  modify (λ d, MkView (UI d) (copyLocationButton d) (model d) (helper d)
                      id (clipboard d) (calls d)).

Definition set_helper (h : option GroundControlPointsHelper) : M unit :=
  modify (λ d, MkView (UI d) (copyLocationButton d) (model d) h
                      (currentPoint d) (clipboard d) (calls d)).

(** A write through the shared pointer [gcp] obtained for [id]: the point
    held by the helper changes. *)
Definition store_point (id : id_t) (gcp : kv.ground_control_point) : M unit :=
  modify (λ d, MkView (UI d) (copyLocationButton d) (model d)
                      (insert id gcp <$> helper d)
                      (currentPoint d) (clipboard d) (calls d)).

(** [gl.location(crs)] as a call that may throw. *)
Definition gl_location (gl : kv.geo_point) (crs : kv.SRID) : M kv.vector_3d :=
  match kv.location gl crs with
  | Some v => mret v
  | None => throw
  end.

Definition conversion_failed (gl : kv.geo_point) : Call :=
  qWarning [QStr "Geo-conversion from GCS"; QInt (kv.crs gl); QStr "failed"].

Definition zero_vector : kv.vector_3d := kv.Vector3d zero zero zero.

(** Modelled from the spec: [GroundControlPointsModel::find(id)], whose
    source is not in this file.  The list model has one row per point
    ([model] holds the id each row shows); [find] is the index of the row
    that shows [id], invalid when there is none. *)
Definition model_find (id : id_t) : M QModelIndex :=
  gets (λ d, fst <$> list_find (λ r, r = id) (model d)).

(** ** The member functions of [GroundControlPointsViewPrivate] *)

Definition enableControls (state : bool) (haveLocation : bool) : M unit :=
  modifyUi (λ ui,
    MkUi (setEnabled state (easting ui))
         (setEnabled state (northing ui))
         (setEnabled state (elevation ui))
         state
         state
         (state && haveLocation)
         (state && haveLocation)
         (state && haveLocation)
         (state && haveLocation)
         (pointsList ui)) ;;
  modify (λ d, MkView (UI d) state (model d) (helper d)
                      (currentPoint d) (clipboard d) (calls d)).

(** The lambda that computes [grl] in [showPoint]. *)
Definition showPoint_grl (gl : kv.geo_point) : M kv.vector_3d :=
  r ← (if negb (kv.is_empty gl)
       then try_catch (v ← gl_location gl kv.lat_lon_WGS84; mret (Some v))
                      (call (conversion_failed gl) ;; mret None)
       else mret None);
  match r with
  | Some v => mret v
  | None => mret zero_vector
  end.

Definition showPoint (id : id_t) : M unit :=
  h ← gets helper;
  let no_point := set_currentPoint INVALID_POINT ;; enableControls false true in
  match h with
  | Some hp =>
      if decide (id ≠ INVALID_POINT) then
        match hp !! id with
        | Some gcp =>
            set_currentPoint id ;;
            let gl := kv.geo_loc gcp in
            grl ← showPoint_grl gl;
            setValue_blocked Easting (kv.x grl) ;;
            setValue_blocked Northing (kv.y grl) ;;
            setValue_blocked Elevation (kv.elevation gcp) ;;
            enableControls true (negb (kv.is_empty gl))
        | None => no_point
        end
      else no_point
  | None => no_point
  end.

Definition setPointPosition (id : id_t) : M unit :=
  h ← gets helper;
  match h with
  | Some hp =>
      if decide (id ≠ INVALID_POINT) then
        match hp !! id with
        | Some gcp =>
            e ← gets (λ d, value (easting (UI d)));
            n ← gets (λ d, value (northing (UI d)));
            let grl := kv.Vector2d e n in
            elev ← gets (λ d, value (elevation (UI d)));
            let gcp := kv.set_geo_loc
                         (kv.geo_point_2d grl kv.lat_lon_WGS84) elev gcp in
            let gcp := kv.set_geo_loc_user_provided true gcp in
            store_point id gcp ;;
            call (model_modifyPoint id)
        | None => mret tt
        end
      else mret tt
  | None => mret tt
  end.

Definition selectedPoint : M id_t :=
  i ← gets (λ d, currentIndex (pointsList (UI d)));
  rows ← gets model;
  mret (match i with
        | Some row => default INVALID_POINT (rows !! row)
        | None => INVALID_POINT
        end).

(** The lambda that computes [grl] in [copyLocation]. *)
Definition copyLocation_grl (gl : kv.geo_point) : M kv.vector_3d :=
  r ← try_catch (v ← gl_location gl kv.lat_lon_WGS84; mret (Some v))
                (call (conversion_failed gl) ;; mret None);
  match r with
  | Some v => mret v
  | None => mret zero_vector
  end.

Definition copyLocation (northingFirst includeElevation : bool) : M unit :=
  hp ← gets helper ≫= deref;
  cur ← gets currentPoint;
  match hp !! cur with
  | Some gcp =>
      let gl := kv.geo_loc gcp in
      if negb (kv.is_empty gl) then
        grl ← copyLocation_grl gl;
        let values := [] in
        let values :=
          if northingFirst
          then values ++ [QString_number (kv.y grl) "f" 9;
                          QString_number (kv.x grl) "f" 9]
          else values ++ [QString_number (kv.x grl) "f" 9;
                          QString_number (kv.y grl) "f" 9] in
        let values :=
          if includeElevation
          then values ++ [QString_number (kv.elevation gcp) "f" 3]
          else values in
        clipboard_write (join "," values)
      else mret tt
  | None => mret tt
  end.

(** ** The slots connected in the constructor *)

(** [selectionModel(), &QItemSelectionModel::currentChanged]. *)
Definition on_currentChanged : M unit :=
  id ← selectedPoint;
  showPoint id ;;
  h ← gets helper;
  match h with
  | Some _ => call (helper_setActivePoint id)
  | None => mret tt
  end.

(** [actionDelete, &QAction::triggered]. *)
Definition on_actionDelete : M unit :=
  h ← gets helper;
  cur ← gets currentPoint;
  match h with
  | Some _ =>
      if decide (cur ≠ INVALID_POINT) then call (helper_removePoint cur)
      else mret tt
  | None => mret tt
  end.

(** [actionRevert, &QAction::triggered]. *)
Definition on_actionRevert : M unit :=
  h ← gets helper;
  cur ← gets currentPoint;
  match h with
  | Some _ =>
      if decide (cur ≠ INVALID_POINT) then
        call (helper_resetPoint cur) ;;
        call (model_modifyPoint cur)
      else mret tt
  | None => mret tt
  end.

Definition on_actionCopyLocationLatLon : M unit := copyLocation true false.
Definition on_actionCopyLocationLatLonElev : M unit := copyLocation true true.
Definition on_actionCopyLocationLonLat : M unit := copyLocation false false.
Definition on_actionCopyLocationLonLatElev : M unit := copyLocation false true.

(** [spp], connected to [valueChanged] of the three spin boxes. *)
Definition spp : M unit :=
  cur ← gets currentPoint;
  setPointPosition cur.

(** The state the constructor leaves: [ui] is what [setupUi] provides,
    the model is empty, the helper is null, no point is current, and
    [enableControls(false)] has run on the freshly made button. *)
Definition constructor (ui : Ui) (clip : string) : Outcome unit :=
  enableControls false true (MkView ui true [] None INVALID_POINT clip []).

(** ** [setHelper] and the slots it connects *)

(** [helper, &GroundControlPointsHelper::pointChanged]. *)
Definition on_pointChanged (id : id_t) : M unit :=
  cur ← gets currentPoint;
  if decide (cur = id) then showPoint id else mret tt.

(** [helper, &GroundControlPointsHelper::pointsRecomputed]. *)
Definition on_pointsRecomputed : M unit :=
  cur ← gets currentPoint;
  if decide (cur ≠ INVALID_POINT) then showPoint cur else mret tt.

(** [helper, &GroundControlPointsHelper::activePointChanged]. *)
Definition on_activePointChanged (id : id_t) : M unit :=
  cur ← gets currentPoint;
  if decide (cur ≠ id) then
    showPoint id ;;
    index ← model_find id;
    selectionModel_select index
  else mret tt.

Definition setHelper (h : option GroundControlPointsHelper) : M unit :=
  set_helper h ;;
  _ ← deref h;
  call model_setPointData.

(** ** The panel as an event-driven system *)

(** What can happen to a constructed panel.  [valueChanged f v] is the
    user changing spin box [f] to [v]; [currentChanged i] is the list
    making [i] its current index.  The last two are the collaborators
    changing behind the panel: the helper's points, and the rows of the
    list model. *)
Inductive Event :=
| currentChanged (i : QModelIndex)
| actionDelete_triggered
| actionRevert_triggered
| actionCopyLocation_triggered (northingFirst includeElevation : bool)
| valueChanged (f : Field) (v : double)
| pointChanged (id : id_t)
| pointsRecomputed
| activePointChanged (id : id_t)
| setHelper_called (h : GroundControlPointsHelper)
| helper_points (h : GroundControlPointsHelper)
| model_rows (rows : list N).

Definition set_currentIndex (i : QModelIndex) : M unit :=
  modifyUi (λ ui,
    MkUi (easting ui) (northing ui) (elevation ui)
         (actionDelete ui) (actionRevert ui)
         (actionCopyLocationLatLon ui) (actionCopyLocationLatLonElev ui)
         (actionCopyLocationLonLat ui) (actionCopyLocationLonLatElev ui)
         (SelectionModel i (selection (pointsList ui)))).

(** The spin box [f] holds [v] after the user's edit. *)
Definition user_edit (f : Field) (v : double) : M unit :=
  modifyUi (λ ui,
    match f with
    | Easting =>
        MkUi (SpinBox v (isEnabled (easting ui))) (northing ui) (elevation ui)
             (actionDelete ui) (actionRevert ui)
             (actionCopyLocationLatLon ui) (actionCopyLocationLatLonElev ui)
             (actionCopyLocationLonLat ui) (actionCopyLocationLonLatElev ui)
             (pointsList ui)
    | Northing =>
        MkUi (easting ui) (SpinBox v (isEnabled (northing ui))) (elevation ui)
             (actionDelete ui) (actionRevert ui)
             (actionCopyLocationLatLon ui) (actionCopyLocationLatLonElev ui)
             (actionCopyLocationLonLat ui) (actionCopyLocationLonLatElev ui)
             (pointsList ui)
    | Elevation =>
        MkUi (easting ui) (northing ui) (SpinBox v (isEnabled (elevation ui)))
             (actionDelete ui) (actionRevert ui)
             (actionCopyLocationLatLon ui) (actionCopyLocationLatLonElev ui)
             (actionCopyLocationLonLat ui) (actionCopyLocationLonLatElev ui)
             (pointsList ui)
    end).

Definition set_model (rows : list N) : M unit :=
  modify (λ d, MkView (UI d) (copyLocationButton d) rows (helper d)
                      (currentPoint d) (clipboard d) (calls d)).

(** The code that runs on an event. *)
Definition fire (e : Event) : M unit :=
  match e with
  | currentChanged i => set_currentIndex i ;; on_currentChanged
  | actionDelete_triggered => on_actionDelete
  | actionRevert_triggered => on_actionRevert
  | actionCopyLocation_triggered nf ie => copyLocation nf ie
  | valueChanged f v => user_edit f v ;; spp
  | pointChanged id => on_pointChanged id
  | pointsRecomputed => on_pointsRecomputed
  | activePointChanged id => on_activePointChanged id
  | setHelper_called h => setHelper (Some h)
  | helper_points h => set_helper (Some h)
  | model_rows rows => set_model rows
  end.

Definition copyAction (northingFirst includeElevation : bool) (ui : Ui) : bool :=
  match northingFirst, includeElevation with
  | true, false => actionCopyLocationLatLon ui
  | true, true => actionCopyLocationLatLonElev ui
  | false, false => actionCopyLocationLonLat ui
  | false, true => actionCopyLocationLonLatElev ui
  end.

Definition spinBox (f : Field) (ui : Ui) : QDoubleSpinBox :=
  match f with
  | Easting => easting ui
  | Northing => northing ui
  | Elevation => elevation ui
  end.

(** When an event can occur: Qt delivers [triggered] and user edits only
    from enabled widgets, and the helper's signals reach the panel only
    once [setHelper] has connected them. *)
Definition possible (e : Event) (d : View) : bool :=
  match e with
  | currentChanged _ => true
  | actionDelete_triggered => actionDelete (UI d)
  | actionRevert_triggered => actionRevert (UI d)
  | actionCopyLocation_triggered nf ie => copyAction nf ie (UI d)
  | valueChanged f _ => isEnabled (spinBox f (UI d))
  | pointChanged _ | pointsRecomputed | activePointChanged _
  | helper_points _ => bool_decide (is_Some (helper d))
  | setHelper_called _ => true
  | model_rows _ => true
  end.

Inductive reachable : View → Prop :=
| reachable_constructed ui clip d :
    constructor ui clip = Returned tt d → reachable d
| reachable_event d e d' :
    reachable d → possible e d = true → fire e d = Returned tt d' →
    reachable d'.

(** ** Reasoning about the member functions *)




Definition is_select (c : Call) : bool :=
  match c with select _ => true | _ => false end.

Definition is_setValue (f : Field) (c : Call) : bool :=
  match c, f with
  | setValue Easting _, Easting
  | setValue Northing _, Northing
  | setValue Elevation _, Elevation => true
  | _, _ => false
  end.

Definition count (p : Call → bool) (cs : list Call) : nat :=
  length (List.filter p cs).

(** What [showPoint] and [copyLocation] take as the location of a point:
    the converted location and the warnings logged on the way. *)
Definition converted (gl : kv.geo_point) : kv.vector_3d * list Call :=
  match kv.location gl kv.lat_lon_WGS84 with
  | Some v => (v, [])
  | None => (zero_vector, [conversion_failed gl])
  end.

Definition displayed (gl : kv.geo_point) : kv.vector_3d * list Call :=
  if kv.is_empty gl then (zero_vector, []) else converted gl.

(** The panel after [showPoint] found [gcp] under [id]. *)
Definition shown (id : id_t) (gcp : kv.ground_control_point) (d : View) : View :=
  let gl := kv.geo_loc gcp in
  let grl := (displayed gl).1 in
  let have := negb (kv.is_empty gl) in
  MkView
    (MkUi (SpinBox (kv.x grl) true) (SpinBox (kv.y grl) true)
          (SpinBox (kv.elevation gcp) true)
          true true have have have have (pointsList (UI d)))
    true (model d) (helper d) id (clipboard d)
    (calls d ++ (displayed gl).2
             ++ [setValue Easting (kv.x grl); setValue Northing (kv.y grl);
                 setValue Elevation (kv.elevation gcp)]).

(** The panel after [showPoint] found no point. *)
Definition cleared (d : View) : View :=
  MkView
    (MkUi (setEnabled false (easting (UI d)))
          (setEnabled false (northing (UI d)))
          (setEnabled false (elevation (UI d)))
          false false false false false false (pointsList (UI d)))
    false (model d) (helper d) INVALID_POINT (clipboard d) (calls d).

(** The point [showPoint id] displays, if any. *)
Definition point_of (id : id_t) (d : View) : option kv.ground_control_point :=
  hp ← helper d;
  if decide (id ≠ INVALID_POINT) then hp !! id else None.

(** The text [copyLocation] assembles from a location [grl] and the point's
    elevation. *)
Definition location_text (northingFirst includeElevation : bool)
    (grl : kv.vector_3d) (elev : double) : string :=
  join ","
    ((if northingFirst
      then [QString_number (kv.y grl) "f" 9; QString_number (kv.x grl) "f" 9]
      else [QString_number (kv.x grl) "f" 9; QString_number (kv.y grl) "f" 9])
     ++ (if includeElevation then [QString_number elev "f" 3] else [])).

(** The panel after [copyLocation] copied the location of [gcp]. *)
Definition copied (northingFirst includeElevation : bool)
    (gcp : kv.ground_control_point) (d : View) : View :=
  let gl := kv.geo_loc gcp in
  let text := location_text northingFirst includeElevation
                (converted gl).1 (kv.elevation gcp) in
  MkView (UI d) (copyLocationButton d) (model d) (helper d) (currentPoint d)
         text (calls d ++ (converted gl).2 ++ [clipboard_setText text]).

(** The point [setPointPosition] writes from the three spin boxes. *)
Definition edited (gcp : kv.ground_control_point) (d : View)
    : kv.ground_control_point :=
  kv.GroundControlPoint
    (kv.geo_point_2d
       (kv.Vector2d (value (easting (UI d))) (value (northing (UI d))))
       kv.lat_lon_WGS84)
    (value (elevation (UI d)))
    true.

(** The panel after [setPointPosition] wrote the point under [id]. *)
Definition positioned (id : id_t) (gcp : kv.ground_control_point)
    (hp : GroundControlPointsHelper) (d : View) : View :=
  MkView (UI d) (copyLocationButton d) (model d)
         (Some (<[id := edited gcp d]> hp))
         (currentPoint d) (clipboard d) (calls d ++ [model_modifyPoint id]).

(** Every editing control of the panel is disabled. *)
Definition controls_disabled (d : View) : Prop :=
  isEnabled (easting (UI d)) = false ∧
  isEnabled (northing (UI d)) = false ∧
  isEnabled (elevation (UI d)) = false ∧
  actionDelete (UI d) = false ∧
  actionRevert (UI d) = false ∧
  actionCopyLocationLatLon (UI d) = false ∧
  actionCopyLocationLatLonElev (UI d) = false ∧
  actionCopyLocationLonLat (UI d) = false ∧
  actionCopyLocationLonLatElev (UI d) = false ∧
  copyLocationButton d = false.

(** The panel after [select index]. *)
Definition selected (index : QModelIndex) (d : View) : View :=
  MkView
    (MkUi (easting (UI d)) (northing (UI d)) (elevation (UI d))
          (actionDelete (UI d)) (actionRevert (UI d))
          (actionCopyLocationLatLon (UI d))
          (actionCopyLocationLatLonElev (UI d))
          (actionCopyLocationLonLat (UI d))
          (actionCopyLocationLonLatElev (UI d))
          (SelectionModel (currentIndex (pointsList (UI d))) index))
    (copyLocationButton d) (model d) (helper d) (currentPoint d)
    (clipboard d) (calls d ++ [select index]).

(** What the constructor establishes and every event keeps: the button is
    enabled exactly when a point is current, a current point comes with a
    helper, and a copy action is enabled only when the button is. *)
Definition consistent (d : View) : Prop :=
  (copyLocationButton d = true ↔ currentPoint d ≠ INVALID_POINT) ∧
  (currentPoint d ≠ INVALID_POINT → is_Some (helper d)) ∧
  (∀ northingFirst includeElevation,
     copyAction northingFirst includeElevation (UI d) = true →
     copyLocationButton d = true).

(** The panel after [showPoint id], whichever way it went. *)
Definition after_show (id : id_t) (d : View) : View :=
  match point_of id d with
  | Some gcp => shown id gcp d
  | None => cleared d
  end.

(** Two panels with the same enabled flags and the same current point,
    the second with a helper whenever the first has one. *)
Definition same_controls (d d' : View) : Prop :=
  (∀ f, isEnabled (spinBox f (UI d')) = isEnabled (spinBox f (UI d))) ∧
  actionDelete (UI d') = actionDelete (UI d) ∧
  actionRevert (UI d') = actionRevert (UI d) ∧
  (∀ northingFirst includeElevation,
     copyAction northingFirst includeElevation (UI d') =
     copyAction northingFirst includeElevation (UI d)) ∧
  copyLocationButton d' = copyLocationButton d ∧
  currentPoint d' = currentPoint d ∧
  (is_Some (helper d) → is_Some (helper d')).

(** The two states of the panel: the spin boxes, delete, revert and the
    copy button are enabled together, exactly when a point is current; a
    copy action is enabled only then; and a current point comes with a
    helper. *)
Definition toggled (d : View) : Prop :=
  let on := bool_decide (currentPoint d ≠ INVALID_POINT) in
  (∀ f, isEnabled (spinBox f (UI d)) = on) ∧
  actionDelete (UI d) = on ∧
  actionRevert (UI d) = on ∧
  copyLocationButton d = on ∧
  (∀ northingFirst includeElevation,
     copyAction northingFirst includeElevation (UI d) = true → on = true) ∧
  (on = true → is_Some (helper d)).

(** The id [selectedPoint] reads off the list's current index. *)
Definition selected_id (d : View) : id_t :=
  match currentIndex (pointsList (UI d)) with
  | Some row => default INVALID_POINT (model d !! row)
  | None => INVALID_POINT
  end.

(** The panel with one more outgoing call on record. *)
Definition logged (c : Call) (d : View) : View :=
  MkView (UI d) (copyLocationButton d) (model d) (helper d) (currentPoint d)
         (clipboard d) (calls d ++ [c]).

(** The panel whose list has made [i] its current index. *)
Definition indexed (i : QModelIndex) (d : View) : View :=
  MkView
    (MkUi (easting (UI d)) (northing (UI d)) (elevation (UI d))
          (actionDelete (UI d)) (actionRevert (UI d))
          (actionCopyLocationLatLon (UI d))
          (actionCopyLocationLatLonElev (UI d))
          (actionCopyLocationLonLat (UI d))
          (actionCopyLocationLonLatElev (UI d))
          (SelectionModel i (selection (pointsList (UI d)))))
    (copyLocationButton d) (model d) (helper d) (currentPoint d)
    (clipboard d) (calls d).

Definition is_setActivePoint (c : Call) : bool :=
  match c with helper_setActivePoint _ => true | _ => false end.

End View.

Arguments Returned {D A} a d.
Arguments Thrown {D A} d.
Arguments Undefined {D A}.

(** ** A panel on the reference platform *)

#[local] Existing Instance Reference.Q_double.
#[local] Existing Instance Reference.fixed_number.
#[local] Existing Instance Reference.wgs84_only.

Section Sample.
Local Open Scope Q_scope.

(** Three points: one located in WGS84, one without a location, one given
    in UTM zone 18N, which the reference geodesy cannot convert. *)
Definition washington : kv.ground_control_point :=
  kv.GroundControlPoint
    (kv.geo_point_2d (kv.Vector2d (-7703 # 100) (38889 # 1000))
                     kv.lat_lon_WGS84)
    (25 # 2) false.

Definition washington_wgs84 : kv.vector_3d :=
  kv.Vector3d (-7703 # 100) (38889 # 1000) 0.

Definition unlocated : kv.ground_control_point :=
  kv.GroundControlPoint kv.geo_point_empty (3 # 1) false.

Definition utm_point : kv.ground_control_point :=
  kv.GroundControlPoint
    (kv.geo_point_3d (kv.Vector3d (323394 # 1) (4307396 # 1) 0) 32618%Z)
    (41 # 1) false.

Definition three_points : gmap N kv.ground_control_point :=
  <[7%N := washington]> (<[8%N := unlocated]> (<[9%N := utm_point]> ∅)).

Definition blank_ui (enabled : bool) : Ui :=
  MkUi (SpinBox 0 enabled) (SpinBox 0 enabled) (SpinBox 0 enabled)
       enabled enabled enabled enabled enabled enabled
       (SelectionModel None None).

(** The constructed panel, and the panel once [setHelper] has run. *)
Definition constructed : View :=
  MkView (blank_ui false) false [] None INVALID_POINT "" [].

Definition with_helper : View :=
  MkView (blank_ui false) false [] (Some three_points) INVALID_POINT ""
         [model_setPointData].

(** The panel showing point [id] of [three_points]. *)
Definition showing (id : N) : View :=
  match fire (activePointChanged id) with_helper with
  | Returned _ d => d
  | _ => with_helper
  end.

(** The panel with a helper right after [showPoint id]. *)
Definition displaying (id : N) : View :=
  match showPoint id with_helper with
  | Returned _ d => d
  | _ => with_helper
  end.

(** The panel with a helper whose list model shows the three points. *)
Definition with_rows : View :=
  MkView (blank_ui false) false [7%N; 8%N; 9%N] (Some three_points)
         INVALID_POINT "" [model_setPointData].

(** The panel that shows point 7 after the helper dropped that point and
    before it said so. *)
Definition two_points : gmap N kv.ground_control_point :=
  delete 7%N three_points.

Definition after_removal : View :=
  match fire (helper_points two_points) (showing 7) with
  | Returned _ d => d
  | _ => with_helper
  end.

(** The panel whose list shows the three points, after the list made
    [row] its current index. *)
Definition selecting (row : nat) : View :=
  match fire (currentChanged (Some row)) with_rows with
  | Returned _ d => d
  | _ => with_rows
  end.

(** The panel after the helper announced [id] as the active point. *)
Definition notified (id : N) (d : View) : View :=
  match fire (activePointChanged id) d with
  | Returned _ d' => d'
  | _ => d
  end.

End Sample.

(** * Properties of the panel *)

Section Properties.
Context `{D : Double} {F : QStringNumber} {G : kv.Geodesy}.

Ltac run :=
  cbv [on_currentChanged on_actionDelete on_actionRevert spp
       on_pointChanged on_pointsRecomputed on_activePointChanged setHelper
       fire set_currentIndex user_edit set_model set_helper
       selectionModel_select model_find selectedPoint call modifyUi modify
       gets deref null_dereference mbind mret M_bind M_ret];
  cbn [UI copyLocationButton model helper currentPoint clipboard calls].

Ltac run_all :=
  cbv [showPoint setPointPosition copyLocation selectedPoint enableControls
       showPoint_grl copyLocation_grl gl_location try_catch deref call
       modifyUi modify gets throw null_dereference setValue_blocked
       selectionModel_select clipboard_write set_currentPoint set_helper
       store_point model_find mbind mret M_bind M_ret
       shown cleared copied positioned edited displayed converted
       setEnabled zero_vector
       UI copyLocationButton model helper currentPoint clipboard calls
       easting northing elevation actionDelete actionRevert
       actionCopyLocationLatLon actionCopyLocationLatLonElev
       actionCopyLocationLonLat actionCopyLocationLonLatElev pointsList
       value isEnabled fst snd negb].

Ltac destruct_view d :=
  let ui := fresh "ui" in
  destruct d as [ui ? ? ? ? ? ?]; destruct ui.

Lemma showPoint_spec id d :
  showPoint id d =
  Returned tt (match point_of id d with
               | Some gcp => shown id gcp d
               | None => cleared d
               end).
Proof.
  unfold point_of. destruct_view d. cbn [helper].
  match goal with |- context [MkView _ _ _ ?h _ _ _] =>
    destruct h as [hp|] end; cbn [mbind option_bind]; [|by run_all].
  destruct (decide (id ≠ INVALID_POINT)) as [Hid|Hid] eqn:Hdec;
    [|run_all; by rewrite Hdec].
  destruct (hp !! id) as [gcp|] eqn:Hp; [|run_all; by rewrite Hdec, Hp].
  run_all. rewrite Hdec, Hp.
  destruct (kv.is_empty (kv.geo_loc gcp)); [|destruct (kv.location _ _)];
    by rewrite <- !app_assoc.
Qed.

Lemma copyLocation_spec northingFirst includeElevation d hp :
  helper d = Some hp →
  copyLocation northingFirst includeElevation d =
  Returned tt (match hp !! currentPoint d with
               | Some gcp =>
                   if kv.is_empty (kv.geo_loc gcp) then d
                   else copied northingFirst includeElevation gcp d
               | None => d
               end).
Proof.
  destruct_view d. cbn [helper currentPoint]. intros ->. run_all.
  destruct (hp !! _) as [gcp|]; [|done].
  destruct (kv.is_empty (kv.geo_loc gcp)); [done|].
  unfold location_text.
  destruct (kv.location _ _), northingFirst, includeElevation;
    by rewrite <- ?app_assoc.
Qed.

Lemma copyLocation_null northingFirst includeElevation d :
  helper d = None → copyLocation northingFirst includeElevation d = Undefined.
Proof. destruct_view d. cbn [helper]. intros ->. by run_all. Qed.

Lemma setPointPosition_spec id d :
  setPointPosition id d =
  Returned tt (match helper d, point_of id d with
               | Some hp, Some gcp => positioned id gcp hp d
               | _, _ => d
               end).
Proof.
  unfold point_of. destruct_view d. cbn [helper].
  match goal with |- context [MkView _ _ _ ?h _ _ _] =>
    destruct h as [hp|] end; cbn [mbind option_bind]; [|by run_all].
  destruct (decide (id ≠ INVALID_POINT)) as [Hid|Hid] eqn:Hdec;
    [|run_all; by rewrite Hdec].
  destruct (hp !! id) as [gcp|] eqn:Hp; run_all; by rewrite Hdec, Hp.
Qed.

Lemma point_of_Some id d gcp :
  point_of id d = Some gcp ↔
  ∃ hp, helper d = Some hp ∧ id ≠ INVALID_POINT ∧ hp !! id = Some gcp.
Proof.
  unfold point_of. destruct (helper d) as [hp|]; cbn.
  - destruct (decide (id ≠ INVALID_POINT)) as [Hid|Hid]; split.
    + intros Hp. by exists hp.
    + by intros (? & [= <-] & _ & ?).
    + done.
    + by intros (? & _ & ? & _).
  - split; [done|]. by intros (? & ? & _).
Qed.

Lemma point_of_None id d :
  point_of id d = None ↔
  id = INVALID_POINT ∨ helper d = None ∨
  ∃ hp, helper d = Some hp ∧ hp !! id = None.
Proof.
  unfold point_of. destruct (helper d) as [hp|]; cbn.
  - destruct (decide (id ≠ INVALID_POINT)) as [Hid|Hid]; split.
    + intros Hp. right; right. by exists hp.
    + by intros [?|[?|(? & [= <-] & ?)]].
    + intros _. left. by apply dec_stable.
    + done.
  - split; [|done]. intros _. by right; left.
Qed.

(** ** Copying the location *)

(** C1.  When the current point has a non-empty location that converts to
    WGS84 coordinates [grl] (x the longitude, y the latitude),
    [copyLocation] puts on the clipboard, joined by commas without
    spaces, latitude then longitude when [northingFirst], longitude then
    latitude otherwise, followed by the point's elevation when
    [includeElevation]; the coordinates are printed with format 'f' and
    9 decimals, the elevation with format 'f' and 3 decimals. *)
Theorem copyLocation_text d hp gcp grl northingFirst includeElevation :
  helper d = Some hp →
  hp !! currentPoint d = Some gcp →
  kv.is_empty (kv.geo_loc gcp) = false →
  kv.location (kv.geo_loc gcp) kv.lat_lon_WGS84 = Some grl →
  let lat := QString_number (kv.y grl) "f" 9 in
  let lon := QString_number (kv.x grl) "f" 9 in
  let elev := QString_number (kv.elevation gcp) "f" 3 in
  let text :=
    match northingFirst, includeElevation with
    | true, false => lat +:+ "," +:+ lon
    | true, true => lat +:+ "," +:+ lon +:+ "," +:+ elev
    | false, false => lon +:+ "," +:+ lat
    | false, true => lon +:+ "," +:+ lat +:+ "," +:+ elev
    end in
  ∃ d', copyLocation northingFirst includeElevation d = Returned tt d' ∧
        clipboard d' = text ∧
        calls d' = calls d ++ [clipboard_setText text].
Proof.
  intros Hh Hp He Hc lat lon elev text.
  rewrite (copyLocation_spec _ _ _ _ Hh), Hp, He.
  eexists; split; [done|].
  unfold copied, converted, location_text. rewrite Hc. cbn [fst snd].
  by destruct northingFirst, includeElevation.
Qed.

(** C7.  When the current point is not found in the helper, or is found
    with an empty location, [copyLocation] returns leaving the panel and
    the clipboard as they were, whatever its two arguments. *)
Theorem copyLocation_without_location d hp northingFirst includeElevation :
  helper d = Some hp →
  hp !! currentPoint d = None ∨
    (∃ gcp, hp !! currentPoint d = Some gcp ∧
            kv.is_empty (kv.geo_loc gcp) = true) →
  copyLocation northingFirst includeElevation d = Returned tt d.
Proof.
  intros Hh Hp. rewrite (copyLocation_spec _ _ _ _ Hh).
  destruct Hp as [->|(gcp & -> & ->)]; done.
Qed.

(** ** Failing conversions *)

(** C2.  When the conversion of a found point's non-empty location to
    WGS84 throws, [showPoint] returns normally: it logs the warning, puts
    zero into the easting and northing boxes and the point's stored
    elevation into the elevation box.  [copyLocation] substitutes the zero
    vector in the same way.  No call of either ever ends in an
    exception. *)
Theorem conversion_failure_contained d hp id gcp :
  helper d = Some hp →
  id ≠ INVALID_POINT →
  hp !! id = Some gcp →
  kv.is_empty (kv.geo_loc gcp) = false →
  kv.location (kv.geo_loc gcp) kv.lat_lon_WGS84 = None →
  (∃ d', showPoint id d = Returned tt d' ∧
         value (easting (UI d')) = zero ∧
         value (northing (UI d')) = zero ∧
         value (elevation (UI d')) = kv.elevation gcp ∧
         calls d' = calls d ++ [conversion_failed (kv.geo_loc gcp);
                                setValue Easting zero;
                                setValue Northing zero;
                                setValue Elevation (kv.elevation gcp)]) ∧
  (currentPoint d = id →
   ∀ northingFirst includeElevation : bool,
     let text :=
       join "," ([QString_number zero "f" 9; QString_number zero "f" 9]
                 ++ (if includeElevation
                     then [QString_number (kv.elevation gcp) "f" 3]
                     else [])) in
     ∃ d', copyLocation northingFirst includeElevation d = Returned tt d' ∧
           clipboard d' = text ∧
           calls d' = calls d ++ [conversion_failed (kv.geo_loc gcp);
                                  clipboard_setText text]) ∧
  (∀ i (s s' : View), showPoint i s ≠ Thrown s') ∧
  (∀ northingFirst includeElevation (s s' : View),
     copyLocation northingFirst includeElevation s ≠ Thrown s').
Proof.
  intros Hh Hid Hp He Hc. repeat split.
  - rewrite showPoint_spec.
    assert (point_of id d = Some gcp) as -> by (apply point_of_Some; eauto).
    eexists; split; [done|].
    unfold shown, displayed, converted. rewrite He, Hc. by cbn.
  - intros Hcur northingFirst includeElevation text.
    rewrite (copyLocation_spec _ _ _ _ Hh), Hcur, Hp, He.
    eexists; split; [done|].
    unfold copied, converted, location_text. rewrite Hc. cbn [fst snd].
    by destruct northingFirst, includeElevation.
  - intros i s s'. by rewrite showPoint_spec.
  - intros northingFirst includeElevation s s'.
    destruct (helper s) as [hs|] eqn:Hs.
    + by rewrite (copyLocation_spec _ _ _ _ Hs).
    + by rewrite copyLocation_null.
Qed.

(** ** Enabling the controls *)

(** C5.  When [showPoint] finds the point and its stored location is
    empty, the four copy actions end up disabled while delete, revert and
    the three spin boxes are enabled. *)
Theorem showPoint_empty_location d hp id gcp :
  helper d = Some hp →
  id ≠ INVALID_POINT →
  hp !! id = Some gcp →
  kv.is_empty (kv.geo_loc gcp) = true →
  ∃ d', showPoint id d = Returned tt d' ∧
        actionCopyLocationLatLon (UI d') = false ∧
        actionCopyLocationLatLonElev (UI d') = false ∧
        actionCopyLocationLonLat (UI d') = false ∧
        actionCopyLocationLonLatElev (UI d') = false ∧
        actionDelete (UI d') = true ∧
        actionRevert (UI d') = true ∧
        isEnabled (easting (UI d')) = true ∧
        isEnabled (northing (UI d')) = true ∧
        isEnabled (elevation (UI d')) = true.
Proof.
  intros Hh Hid Hp He. rewrite showPoint_spec.
  assert (point_of id d = Some gcp) as -> by (apply point_of_Some; eauto).
  eexists; split; [done|]. unfold shown. rewrite He. by cbn.
Qed.

(** ** Notifications from the helper *)

(** C10.  A [pointChanged] notification for an id other than the current
    point leaves the whole panel as it was (the three boxes, the current
    point and the enabled flags included); for the current point it is
    [showPoint] of that id. *)
Theorem pointChanged_other d id :
  (currentPoint d ≠ id →
   on_pointChanged id d = Returned tt d ∧
   fire (pointChanged id) d = Returned tt d) ∧
  (currentPoint d = id →
   on_pointChanged id d = showPoint id d) ∧
  (∀ d', on_pointChanged id d = Returned tt d' → d' ≠ d →
         currentPoint d = id).
Proof.
  repeat split.
  - run. by case_decide.
  - run. by case_decide.
  - intros Hc. run. by case_decide.
  - intros d' Hr Hne. revert Hr. run. case_decide; [done|]. congruence.
Qed.

(** ** No point *)



(** ** Committing an edit *)

(** C4.  When the current point is found in the helper and the user
    changes one of the three spin boxes, the point the helper holds under
    that id gets the (easting, northing) pair of the boxes tagged with
    [lat_lon_WGS84] as its location and the elevation box as its
    elevation, is marked user provided, and the model is told that this
    id was modified; the other points stay as they were. *)
Theorem setPointPosition_writes d hp gcp f v :
  helper d = Some hp →
  currentPoint d ≠ INVALID_POINT →
  hp !! currentPoint d = Some gcp →
  ∃ d1 d' hp' gcp',
    user_edit f v d = Returned tt d1 ∧
    value (spinBox f (UI d1)) = v ∧
    setPointPosition (currentPoint d) d1 = Returned tt d' ∧
    fire (valueChanged f v) d = Returned tt d' ∧
    helper d' = Some hp' ∧
    hp' !! currentPoint d = Some gcp' ∧
    kv.geo_loc gcp' =
      kv.geo_point_2d
        (kv.Vector2d (value (easting (UI d1))) (value (northing (UI d1))))
        kv.lat_lon_WGS84 ∧
    kv.elevation gcp' = value (elevation (UI d1)) ∧
    kv.is_geo_loc_user_provided gcp' = true ∧
    (∀ j, j ≠ currentPoint d → hp' !! j = hp !! j) ∧
    calls d' = calls d ++ [model_modifyPoint (currentPoint d)].
Proof.
  intros Hh Hid Hp.
  destruct (user_edit f v d) as [[] d1| |] eqn:Hd1; try by destruct f.
  assert (helper d1 = Some hp ∧ currentPoint d1 = currentPoint d ∧
          calls d1 = calls d ∧ value (spinBox f (UI d1)) = v)
    as (Hh1 & Hc1 & Hk1 & Hv1).
  { revert Hd1. run. intros [= <-]. by destruct f. }
  assert (point_of (currentPoint d) d1 = Some gcp) as Hpo.
  { apply point_of_Some. eauto. }
  exists d1, (positioned (currentPoint d) gcp hp d1),
         (<[currentPoint d := edited gcp d1]> hp), (edited gcp d1).
  split; [done|]. split; [done|].
  assert (setPointPosition (currentPoint d) d1 =
          Returned tt (positioned (currentPoint d) gcp hp d1)) as Hspp.
  { by rewrite setPointPosition_spec, Hh1, Hpo. }
  split; [done|]. split.
  { cbn [fire]. unfold mbind, M_bind at 1. rewrite Hd1.
    unfold spp, mbind, M_bind, gets. by rewrite Hc1. }
  split; [done|]. split; [by rewrite lookup_insert_eq|].
  split; [done|]. split; [done|]. split; [done|]. split.
  - intros j Hj. by rewrite lookup_insert_ne.
  - cbn. by rewrite Hk1.
Qed.

(** ** The active point *)

Lemma count_app p cs cs' : count p (cs ++ cs') = count p cs + count p cs'.
Proof. unfold count. by rewrite List.filter_app, length_app. Qed.

Lemma count_displayed p gl :
  (∀ msg, p (qWarning msg) = false) → count p (displayed gl).2 = 0.
Proof.
  intros Hp. unfold displayed, converted.
  destruct (kv.is_empty gl); [done|].
  destruct (kv.location _ _); [done|].
  unfold count, conversion_failed. cbn. by rewrite Hp.
Qed.

Lemma on_activePointChanged_spec id d :
  on_activePointChanged id d =
  if decide (currentPoint d ≠ id) then
    Returned tt
      (selected (fst <$> list_find (λ r, r = id) (model d))
         (match point_of id d with
          | Some gcp => shown id gcp d
          | None => cleared d
          end))
  else Returned tt d.
Proof.
  unfold on_activePointChanged, mbind, M_bind, gets.
  case_decide; [|done]. rewrite showPoint_spec.
  by destruct (point_of id d).
Qed.

(** C6, as the code has it.  An [activePointChanged] notification for the
    current point changes nothing.  For another id the slot runs
    [showPoint] once and then [select] once on the row of that id; it
    makes no [setActivePoint] call and leaves the current index of the
    list alone, so that nothing runs the slot again.  When the helper
    holds the point, each spin box is written exactly once, the id
    becomes the current point and a notification that repeats it is
    skipped.  When it does not, no spin box is written and the panel is
    cleared; a notification that repeats the id is then skipped for the
    sentinel only, and otherwise runs the slot again, to the same panel
    and one more [select]. *)
Theorem activePointChanged_once d id :
  (currentPoint d = id → on_activePointChanged id d = Returned tt d) ∧
  (currentPoint d ≠ id →
   ∃ d1 d' index,
     showPoint id d = Returned tt d1 ∧
     model_find id d1 = Returned index d1 ∧
     selectionModel_select index d1 = Returned tt d' ∧
     on_activePointChanged id d = Returned tt d' ∧
     fire (activePointChanged id) d = Returned tt d' ∧
     selection (pointsList (UI d')) = index ∧
     currentIndex (pointsList (UI d')) = currentIndex (pointsList (UI d)) ∧
     count is_select (calls d') = S (count is_select (calls d)) ∧
     count is_setActivePoint (calls d')
       = count is_setActivePoint (calls d) ∧
     (∀ hp gcp,
        helper d = Some hp → id ≠ INVALID_POINT → hp !! id = Some gcp →
        currentPoint d' = id ∧
        (∀ f, count (is_setValue f) (calls d')
              = S (count (is_setValue f) (calls d))) ∧
        on_activePointChanged id d' = Returned tt d') ∧
     (id = INVALID_POINT ∨ helper d = None ∨
        (∃ hp, helper d = Some hp ∧ hp !! id = None) →
      currentPoint d' = INVALID_POINT ∧
      controls_disabled d' ∧
      (∀ f, count (is_setValue f) (calls d')
            = count (is_setValue f) (calls d)) ∧
      (id = INVALID_POINT → on_activePointChanged id d' = Returned tt d') ∧
      (id ≠ INVALID_POINT →
       ∃ d'', on_activePointChanged id d' = Returned tt d'' ∧
              UI d'' = UI d' ∧
              copyLocationButton d'' = copyLocationButton d' ∧
              currentPoint d'' = currentPoint d' ∧
              helper d'' = helper d' ∧
              calls d'' = calls d' ++ [select index]))).
Proof.
  split.
  - intros Hc. rewrite on_activePointChanged_spec. by case_decide.
  - intros Hc.
    pose proof (on_activePointChanged_spec id d) as Hact.
    rewrite decide_True in Hact by done.
    pose proof (showPoint_spec id d) as Hshow.
    set (index := fst <$> list_find (λ r, r = id) (model d)) in *.
    destruct (point_of id d) as [gcp|] eqn:Hpo.
    + exists (shown id gcp d), (selected index (shown id gcp d)), index.
      do 7 (split; [done|]).
      assert (∀ p, (∀ msg, p (qWarning msg) = false) →
                count p (calls (selected index (shown id gcp d))) =
                count p (calls d)
                + count p [setValue Easting (kv.x (displayed (kv.geo_loc gcp)).1);
                           setValue Northing (kv.y (displayed (kv.geo_loc gcp)).1);
                           setValue Elevation (kv.elevation gcp);
                           select index]) as Hcount.
      { intros p Hp. cbn [calls selected shown].
        rewrite <- !app_assoc, !count_app, count_displayed by done.
        by rewrite <- count_app. }
      split; [rewrite Hcount by done; cbn; lia|].
      split; [rewrite Hcount by done; cbn; lia|].
      split.
      * intros hp gcp' _ _ _. split; [done|]. split.
        -- intros f. rewrite Hcount by by destruct f. destruct f; cbn; lia.
        -- rewrite on_activePointChanged_spec.
           by rewrite decide_False by auto.
      * intros Hno. apply point_of_None in Hno. congruence.
    + exists (cleared d), (selected index (cleared d)), index.
      do 7 (split; [done|]).
      split; [cbn [calls selected cleared]; rewrite count_app; cbn; lia|].
      split; [cbn [calls selected cleared]; rewrite count_app; cbn; lia|].
      split.
      * intros hp gcp Hh Hid Hp.
        assert (point_of id d = Some gcp) by (apply point_of_Some; eauto).
        congruence.
      * intros _. split; [done|]. split; [by repeat split|]. split.
        { intros f. cbn [calls selected cleared]. rewrite count_app.
          destruct f; cbn; lia. }
        split.
        -- intros ->. rewrite on_activePointChanged_spec.
           by rewrite decide_False by auto.
        -- intros Hid. rewrite on_activePointChanged_spec.
           rewrite decide_True by (cbn; congruence).
           assert (point_of id (selected index (cleared d)) = None) as ->.
           { apply point_of_None. apply point_of_None in Hpo.
             destruct Hpo as [?|[?|?]]; auto. }
           eexists. split; [reflexivity|]. by repeat split.
Qed.

(** ** The null helper *)

(** C8.  [copyLocation] dereferences the helper without a test: it is
    undefined exactly when the helper is null, and returns whenever a
    helper is set.  The delete and revert slots, [showPoint] and
    [setPointPosition] (with the slot [spp] that calls it) test the helper
    first: they are never undefined, and with a null helper delete,
    revert and [setPointPosition] leave the panel as it is. *)
Theorem copyLocation_needs_helper d :
  (∀ northingFirst includeElevation,
     (copyLocation northingFirst includeElevation d = Undefined ↔
      helper d = None) ∧
     (is_Some (helper d) →
      ∃ d', copyLocation northingFirst includeElevation d = Returned tt d')) ∧
  on_actionDelete d ≠ Undefined ∧
  on_actionRevert d ≠ Undefined ∧
  spp d ≠ Undefined ∧
  (∀ id, showPoint id d ≠ Undefined ∧ setPointPosition id d ≠ Undefined) ∧
  (helper d = None →
   on_actionDelete d = Returned tt d ∧
   on_actionRevert d = Returned tt d ∧
   spp d = Returned tt d ∧
   (∀ id, setPointPosition id d = Returned tt d) ∧
   (∀ id, ∃ d', showPoint id d = Returned tt d')).
Proof.
  split; [|split; [|split; [|split; [|split]]]].
  - intros northingFirst includeElevation.
    destruct (helper d) as [hp|] eqn:Hh.
    + rewrite (copyLocation_spec _ _ _ _ Hh). split; [done|]. eauto.
    + rewrite (copyLocation_null _ _ _ Hh). split; [done|]. by intros [].
  - run. destruct (helper d); [case_decide|]; done.
  - run. destruct (helper d); [case_decide|]; done.
  - unfold spp, mbind, M_bind, gets. by rewrite setPointPosition_spec.
  - intros id. by rewrite showPoint_spec, setPointPosition_spec.
  - intros Hh. split; [|split; [|split; [|split]]].
    + run. by rewrite Hh.
    + run. by rewrite Hh.
    + unfold spp, mbind, M_bind, gets. by rewrite setPointPosition_spec, Hh.
    + intros id. by rewrite setPointPosition_spec, Hh.
    + intros id. rewrite showPoint_spec. eauto.
Qed.

(** ** What every reachable panel satisfies *)

Lemma consistent_frame d d' :
  copyLocationButton d' = copyLocationButton d →
  currentPoint d' = currentPoint d →
  (∀ nf ie, copyAction nf ie (UI d') = copyAction nf ie (UI d)) →
  (is_Some (helper d) → is_Some (helper d')) →
  consistent d → consistent d'.
Proof.
  intros Hb Hc Ha Hh (Hbc & Hch & Hab). unfold consistent.
  rewrite Hb, Hc. split; [done|]. split; [auto|].
  intros nf ie. rewrite Ha. apply Hab.
Qed.

Lemma showPoint_consistent id d d' :
  showPoint id d = Returned tt d' → consistent d'.
Proof.
  rewrite showPoint_spec. intros [= <-].
  destruct (point_of id d) as [gcp|] eqn:Hpo.
  - apply point_of_Some in Hpo as (hp & Hh & Hid & _).
    split; [done|]. split; [|done]. cbn. rewrite Hh. eauto.
  - split; [|split]; cbn; [|done|by intros [] []].
    split; [done|]. by intros [].
Qed.

Lemma constructor_consistent ui clip d :
  constructor ui clip = Returned tt d → consistent d.
Proof.
  unfold constructor, enableControls, modifyUi, modify, mbind, M_bind.
  intros [= <-]. split; [|split]; cbn; [|done|by intros [] []].
  split; [done|]. by intros [].
Qed.

Lemma fire_consistent e d d' :
  consistent d → fire e d = Returned tt d' → consistent d'.
Proof.
  intros Hd. destruct e as [i| | |nf ie|f v|id| |id|h|h|rows]; cbn [fire].
  - unfold set_currentIndex, on_currentChanged, selectedPoint, modifyUi,
      modify, call, gets, mbind, M_bind, mret, M_ret.
    destruct (showPoint _ _) as [[] ds| |] eqn:Hs; [|done..].
    apply showPoint_consistent in Hs.
    destruct (helper ds); intros [= <-]; [|done].
    by apply (consistent_frame ds).
  - run. destruct (helper d); [case_decide|]; intros [= <-];
      first [done | by apply (consistent_frame d)].
  - run. destruct (helper d); [case_decide|]; intros [= <-];
      first [done | by apply (consistent_frame d)].
  - destruct (helper d) as [hp|] eqn:Hh.
    + rewrite (copyLocation_spec _ _ _ _ Hh). intros [= <-].
      destruct (hp !! currentPoint d) as [gcp|]; [|done].
      destruct (kv.is_empty _); [done|]. by apply (consistent_frame d).
    + by rewrite (copyLocation_null _ _ _ Hh).
  - unfold mbind, M_bind at 1.
    destruct (user_edit f v d) as [[] d1| |] eqn:Hd1; [|done..].
    assert (consistent d1) as Hd1c.
    { revert Hd1. run. intros [= <-].
      apply (consistent_frame d); [done|done| |done|done].
      by destruct f. }
    unfold spp, mbind, M_bind, gets. rewrite setPointPosition_spec.
    intros [= <-]. destruct (helper d1) as [hp|] eqn:Hh; [|done].
    destruct (point_of _ _); [|done].
    apply (consistent_frame d1); first [done | by intros _].
  - run. case_decide; [|by intros [= <-]]. apply showPoint_consistent.
  - run. case_decide; [|by intros [= <-]]. apply showPoint_consistent.
  - rewrite on_activePointChanged_spec. case_decide; [|by intros [= <-]].
    intros [= <-].
    assert (consistent (match point_of id d with
                        | Some gcp => shown id gcp d
                        | None => cleared d
                        end)) as Hs.
    { apply (showPoint_consistent id d). apply showPoint_spec. }
    revert Hs. apply consistent_frame; first [done | by intros [] []].
  - run. intros [= <-].
    apply (consistent_frame d); first [done | by intros _].
  - run. intros [= <-].
    apply (consistent_frame d); first [done | by intros _].
  - run. intros [= <-]. by apply (consistent_frame d).
Qed.

Lemma reachable_consistent d : reachable d → consistent d.
Proof.
  induction 1 as [ui clip d Hc|d e d' _ IH _ Hf].
  - by apply (constructor_consistent ui clip).
  - by apply (fire_consistent e d).
Qed.

(** No event that can occur on a reachable panel ends in an exception or
    in a null dereference: the copy actions are enabled only while a
    helper is set. *)
Lemma fire_returns d e :
  reachable d → possible e d = true → ∃ d', fire e d = Returned tt d'.
Proof.
  intros Hr Hp. apply reachable_consistent in Hr as (Hbc & Hch & Hab).
  destruct e as [i| | |nf ie|f v|id| |id|h|h|rows]; cbn [fire].
  - unfold set_currentIndex, on_currentChanged, selectedPoint, modifyUi,
      modify, call, gets, mbind, M_bind, mret, M_ret.
    destruct (showPoint _ _) as [[] ds| |] eqn:Hs;
      [|by rewrite showPoint_spec in Hs..].
    destruct (helper ds); eauto.
  - run. destruct (helper d); [case_decide|]; eauto.
  - run. destruct (helper d); [case_decide|]; eauto.
  - cbn in Hp. apply Hab, Hbc, Hch in Hp as [hp Hh].
    rewrite (copyLocation_spec _ _ _ _ Hh). eauto.
  - unfold mbind, M_bind at 1.
    destruct (user_edit f v d) as [[] d1| |] eqn:Hd1;
      [|revert Hd1; by run..].
    unfold spp, mbind, M_bind, gets. rewrite setPointPosition_spec. eauto.
  - run. case_decide; [rewrite showPoint_spec|]; eauto.
  - run. case_decide; [rewrite showPoint_spec|]; eauto.
  - rewrite on_activePointChanged_spec. case_decide; eauto.
  - run. eauto.
  - run. eauto.
  - run. eauto.
Qed.

(** C9.  [enableControls] gives the copy-location button the enabled
    state of its first argument whatever the second; after [showPoint],
    and on every reachable panel, the button is enabled exactly when a
    point is current; and for a found point without a location the
    button is enabled while the four copy actions of its menu are
    disabled. *)
Theorem copyLocationButton_enabled :
  (∀ state haveLocation d,
     ∃ d', enableControls state haveLocation d = Returned tt d' ∧
           copyLocationButton d' = state) ∧
  (∀ id d,
     ∃ d', showPoint id d = Returned tt d' ∧
           (copyLocationButton d' = true ↔
            currentPoint d' ≠ INVALID_POINT)) ∧
  (∀ d, reachable d →
        (copyLocationButton d = true ↔ currentPoint d ≠ INVALID_POINT)) ∧
  (∀ d hp id gcp,
     helper d = Some hp → id ≠ INVALID_POINT → hp !! id = Some gcp →
     kv.is_empty (kv.geo_loc gcp) = true →
     ∃ d', showPoint id d = Returned tt d' ∧
           currentPoint d' = id ∧
           copyLocationButton d' = true ∧
           actionCopyLocationLatLon (UI d') = false ∧
           actionCopyLocationLatLonElev (UI d') = false ∧
           actionCopyLocationLonLat (UI d') = false ∧
           actionCopyLocationLonLatElev (UI d') = false).
Proof.
  split; [|split; [|split]].
  - intros state haveLocation d. eexists. split.
    + unfold enableControls, modifyUi, modify, mbind, M_bind. reflexivity.
    + reflexivity.
  - intros id d.
    destruct (showPoint id d) as [[] d'| |] eqn:Hs;
      [|by rewrite showPoint_spec in Hs..].
    exists d'. split; [done|]. by apply showPoint_consistent in Hs as [? _].
  - intros d Hr. by apply reachable_consistent in Hr as [? _].
  - intros d hp id gcp Hh Hid Hp He. rewrite showPoint_spec.
    assert (point_of id d = Some gcp) as -> by (apply point_of_Some; eauto).
    eexists; split; [done|]. unfold shown. rewrite He. by cbn.
Qed.

(** ** How the events move the panel *)

Lemma same_controls_refl d : same_controls d d.
Proof. by repeat split. Qed.

Lemma on_currentChanged_spec d :
  on_currentChanged d =
  Returned tt (match helper d with
               | Some _ =>
                   logged (helper_setActivePoint (selected_id d))
                          (after_show (selected_id d) d)
               | None => after_show (selected_id d) d
               end).
Proof.
  unfold on_currentChanged, selectedPoint, call, modify, gets, mbind, M_bind,
    mret, M_ret.
  rewrite showPoint_spec. fold (selected_id d) (after_show (selected_id d) d).
  assert (helper (after_show (selected_id d) d) = helper d) as ->.
  { unfold after_show. by destruct (point_of _ _). }
  by destruct (helper d).
Qed.

Lemma fire_currentChanged i d :
  fire (currentChanged i) d = on_currentChanged (indexed i d).
Proof. reflexivity. Qed.

Ltac same_controls_tac :=
  repeat split;
  first [done | by intros [] | by intros [] [] | by intros _ | auto].

Lemma fire_shape e d d' :
  fire e d = Returned tt d' →
  same_controls d d' ∨
  ∃ id d0, helper d0 = helper d ∧ same_controls (after_show id d0) d'.
Proof.
  destruct e as [i| | |nf ie|f v|id| |id|h|h|rows];
    [rewrite fire_currentChanged|cbn [fire]..].
  - rewrite on_currentChanged_spec. intros [= <-]. right.
    exists (selected_id (indexed i d)), (indexed i d). split; [done|].
    destruct (helper d); same_controls_tac.
  - run. destruct (helper d); [case_decide|]; intros [= <-];
      left; same_controls_tac.
  - run. destruct (helper d); [case_decide|]; intros [= <-];
      left; same_controls_tac.
  - destruct (helper d) as [hp|] eqn:Hh.
    + rewrite (copyLocation_spec _ _ _ _ Hh). intros [= <-]. left.
      destruct (hp !! currentPoint d) as [gcp|]; [|same_controls_tac].
      destruct (kv.is_empty _); same_controls_tac.
    + by rewrite (copyLocation_null _ _ _ Hh).
  - unfold mbind, M_bind at 1.
    destruct (user_edit f v d) as [[] d1| |] eqn:Hd1; [|done..].
    assert (same_controls d d1) as Hd1c.
    { revert Hd1. run. intros [= <-]. destruct f; same_controls_tac. }
    unfold spp, mbind, M_bind, gets. rewrite setPointPosition_spec.
    intros [= <-]. left. destruct (helper d1) as [hp|] eqn:Hh; [|done].
    destruct (point_of _ _); [|done].
    destruct Hd1c as (? & ? & ? & ? & ? & ? & ?).
    repeat split; first [done | by intros _].
  - run. case_decide; [|intros [= <-]; left; apply same_controls_refl].
    rewrite showPoint_spec. intros [= <-]. right. exists id, d.
    split; [done|]. apply same_controls_refl.
  - run. case_decide; [|intros [= <-]; left; apply same_controls_refl].
    rewrite showPoint_spec. intros [= <-]. right. exists (currentPoint d), d.
    split; [done|]. apply same_controls_refl.
  - rewrite on_activePointChanged_spec.
    case_decide; [|intros [= <-]; left; apply same_controls_refl].
    intros [= <-]. right. exists id, d. split; [done|].
    fold (after_show id d). same_controls_tac.
  - run. intros [= <-]. left. same_controls_tac.
  - run. intros [= <-]. left. same_controls_tac.
  - run. intros [= <-]. left. same_controls_tac.
Qed.

Lemma toggled_frame d d' : same_controls d d' → toggled d → toggled d'.
Proof.
  intros (Hs & Hdel & Hrev & Hcopy & Hb & Hc & Hh) (Ts & Tdel & Trev & Tb & Tcopy & Th).
  unfold toggled. rewrite Hc, Hdel, Hrev, Hb.
  split; [by intros f; rewrite Hs|]. do 3 (split; [done|]).
  split; [by intros nf ie; rewrite Hcopy; apply Tcopy|]. auto.
Qed.

Lemma toggled_after_show id d : toggled (after_show id d).
Proof.
  unfold after_show. destruct (point_of id d) as [gcp|] eqn:Hpo.
  - apply point_of_Some in Hpo as (hp & Hh & Hid & _).
    unfold toggled. cbn [currentPoint shown].
    rewrite bool_decide_eq_true_2 by done.
    split; [by intros []|]. do 4 (split; [done|]).
    intros _. cbn. rewrite Hh. eauto.
  - unfold toggled. cbn [currentPoint cleared].
    rewrite bool_decide_eq_false_2 by (by intros []).
    split; [by intros []|]. do 3 (split; [done|]).
    split; [by intros [] []|done].
Qed.

Lemma reachable_toggled d : reachable d → toggled d.
Proof.
  induction 1 as [ui clip d Hc|d e d' _ IH _ Hf].
  - revert Hc.
    unfold constructor, enableControls, modifyUi, modify, mbind, M_bind.
    intros [= <-]. unfold toggled. cbn [currentPoint].
    rewrite bool_decide_eq_false_2 by (by intros []).
    split; [by intros []|]. do 3 (split; [done|]).
    split; [by intros [] []|done].
  - apply fire_shape in Hf as [Hs|(id & d0 & _ & Hs)].
    + by apply (toggled_frame d).
    + apply (toggled_frame _ _ Hs), toggled_after_show.
Qed.

(** X1.  On a panel reached from the constructor, every event that can
    occur (a slot of an enabled widget, or a signal of the connected
    helper) runs to a normal return, and the panel it leaves is reachable
    again: no exception escapes and the null helper is never
    dereferenced. *)
Theorem reachable_event_returns d e :
  reachable d → possible e d = true →
  ∃ d', fire e d = Returned tt d' ∧ reachable d'.
Proof.
  intros Hr Hp. destruct (fire_returns d e Hr Hp) as [d' Hd'].
  exists d'. split; [done|]. by apply (reachable_event d e).
Qed.

(** X2.  On every reachable panel the three spin boxes, delete, revert
    and the copy-location button are enabled exactly when a point is
    current; a copy action is enabled only when a point is current; and a
    current point comes with a helper. *)
Theorem reachable_two_states d :
  reachable d →
  let on := bool_decide (currentPoint d ≠ INVALID_POINT) in
  isEnabled (easting (UI d)) = on ∧
  isEnabled (northing (UI d)) = on ∧
  isEnabled (elevation (UI d)) = on ∧
  actionDelete (UI d) = on ∧
  actionRevert (UI d) = on ∧
  copyLocationButton d = on ∧
  (actionCopyLocationLatLon (UI d) = true ∨
   actionCopyLocationLatLonElev (UI d) = true ∨
   actionCopyLocationLonLat (UI d) = true ∨
   actionCopyLocationLonLatElev (UI d) = true →
   currentPoint d ≠ INVALID_POINT) ∧
  (currentPoint d ≠ INVALID_POINT → is_Some (helper d)).
Proof.
  intros Hr on. apply reachable_toggled in Hr
    as (Hs & Hdel & Hrev & Hb & Hcopy & Hh).
  split; [exact (Hs Easting)|]. split; [exact (Hs Northing)|].
  split; [exact (Hs Elevation)|]. do 3 (split; [done|]). split.
  - intros [H|[H|[H|H]]]; eapply bool_decide_eq_true_1.
    + by apply (Hcopy true false).
    + by apply (Hcopy true true).
    + by apply (Hcopy false false).
    + by apply (Hcopy false true).
  - intros Hc. apply Hh. by apply bool_decide_eq_true_2.
Qed.

(** ** The helper pointer *)

(** X3.  [setHelper] on a null pointer dereferences it.  On a helper it
    installs the helper and asks the model once to reload, leaving the
    current point, the widgets and the clipboard as they were (the
    display is not refreshed).  No event run afterwards takes the helper
    away again. *)
Theorem setHelper_installs d :
  setHelper None d = Undefined ∧
  (∀ h, ∃ d', setHelper (Some h) d = Returned tt d' ∧
              helper d' = Some h ∧
              UI d' = UI d ∧
              copyLocationButton d' = copyLocationButton d ∧
              currentPoint d' = currentPoint d ∧
              clipboard d' = clipboard d ∧
              calls d' = calls d ++ [model_setPointData]) ∧
  (∀ e d', fire e d = Returned tt d' →
           is_Some (helper d) → is_Some (helper d')).
Proof.
  split; [done|]. split.
  - intros h. eexists. split; [reflexivity|]. by repeat split.
  - intros e d' Hf Hh. apply fire_shape in Hf as [Hs|(id & d0 & Hd0 & Hs)].
    + by apply Hs.
    + apply Hs. unfold after_show.
      destruct (point_of id d0); cbn [helper shown cleared]; by rewrite Hd0.
Qed.

(** ** Refreshing the display *)

(** X4.  Once [showPoint] has run, running it again for the point that
    is now current ([pointsRecomputed], or [pointChanged] for that id)
    changes neither the widgets nor the current point, the helper, the
    model or the clipboard: with the helper's points unchanged a refresh
    only repeats the calls. *)
Theorem refresh_is_stable d id d1 :
  showPoint id d = Returned tt d1 →
  ∃ d2 d3,
    on_pointsRecomputed d1 = Returned tt d2 ∧
    on_pointChanged (currentPoint d1) d1 = Returned tt d3 ∧
    UI d2 = UI d1 ∧ UI d3 = UI d1 ∧
    copyLocationButton d2 = copyLocationButton d1 ∧
    copyLocationButton d3 = copyLocationButton d1 ∧
    currentPoint d2 = currentPoint d1 ∧ currentPoint d3 = currentPoint d1 ∧
    helper d2 = helper d1 ∧ helper d3 = helper d1 ∧
    model d2 = model d1 ∧ model d3 = model d1 ∧
    clipboard d2 = clipboard d1 ∧ clipboard d3 = clipboard d1.
Proof.
  rewrite showPoint_spec. intros [= <-].
  destruct (point_of id d) as [gcp|] eqn:Hpo.
  - assert (point_of id (shown id gcp d) = Some gcp) as Hpo'.
    { apply point_of_Some in Hpo as (hp & Hh & Hid & Hp).
      apply point_of_Some. by exists hp. }
    apply point_of_Some in Hpo as (_ & _ & Hid & _).
    exists (shown id gcp (shown id gcp d)), (shown id gcp (shown id gcp d)).
    split; [|split; [|done]].
    + unfold on_pointsRecomputed, mbind, M_bind, gets.
      cbn [currentPoint shown]. rewrite decide_True by done.
      by rewrite showPoint_spec, Hpo'.
    + unfold on_pointChanged, mbind, M_bind, gets.
      cbn [currentPoint shown]. rewrite decide_True by done.
      by rewrite showPoint_spec, Hpo'.
  - assert (point_of INVALID_POINT (cleared d) = None) as Hpo'.
    { apply point_of_None. by left. }
    exists (cleared d), (cleared (cleared d)).
    split; [|split; [|done]].
    + unfold on_pointsRecomputed, mbind, M_bind, gets.
      cbn [currentPoint cleared]. by rewrite decide_False by auto.
    + unfold on_pointChanged, mbind, M_bind, gets.
      cbn [currentPoint cleared]. rewrite decide_True by done.
      by rewrite showPoint_spec, Hpo'.
Qed.

(** ** Display, edit and copy together *)

(** X5.  Committing the three boxes for the current point and then
    refreshing that point brings back the same three values and enables
    the four copy actions, provided the geodesy hands a WGS84 location
    back unchanged. *)
Theorem edit_then_refresh d hp gcp z :
  helper d = Some hp →
  currentPoint d ≠ INVALID_POINT →
  hp !! currentPoint d = Some gcp →
  kv.location
    (kv.geo_point_2d
       (kv.Vector2d (value (easting (UI d))) (value (northing (UI d))))
       kv.lat_lon_WGS84)
    kv.lat_lon_WGS84
  = Some (kv.Vector3d (value (easting (UI d))) (value (northing (UI d))) z) →
  ∃ d1 d2,
    spp d = Returned tt d1 ∧
    on_pointChanged (currentPoint d) d1 = Returned tt d2 ∧
    value (easting (UI d2)) = value (easting (UI d)) ∧
    value (northing (UI d2)) = value (northing (UI d)) ∧
    value (elevation (UI d2)) = value (elevation (UI d)) ∧
    (∀ northingFirst includeElevation,
       copyAction northingFirst includeElevation (UI d2) = true) ∧
    helper d2 = helper d1 ∧
    currentPoint d2 = currentPoint d.
Proof.
  intros Hh Hid Hp Hloc.
  assert (point_of (currentPoint d) d = Some gcp) as Hpo.
  { apply point_of_Some. eauto. }
  exists (positioned (currentPoint d) gcp hp d).
  eexists. split.
  { unfold spp, mbind, M_bind, gets.
    by rewrite setPointPosition_spec, Hh, Hpo. }
  unfold on_pointChanged, mbind, M_bind, gets.
  cbn [currentPoint positioned]. rewrite decide_True by done.
  rewrite showPoint_spec.
  assert (point_of (currentPoint d) (positioned (currentPoint d) gcp hp d)
          = Some (edited gcp d)) as ->.
  { apply point_of_Some. eexists. split; [done|]. split; [done|].
    apply lookup_insert_eq. }
  split; [done|].
  unfold shown, displayed, converted. cbn [kv.geo_loc edited kv.is_empty].
  rewrite Hloc. cbn. repeat split. by intros [] [].
Qed.

(** X6.  After [showPoint] displayed a found point whose location is
    empty or cannot be converted, the two coordinate boxes hold zero; a
    change of the elevation box then stores (0, 0) in WGS84 as the
    point's location, so the point is no longer empty and its former
    location is gone. *)
Theorem edit_after_zero_display d hp id gcp v :
  helper d = Some hp →
  id ≠ INVALID_POINT →
  hp !! id = Some gcp →
  kv.is_empty (kv.geo_loc gcp) = true ∨
    kv.location (kv.geo_loc gcp) kv.lat_lon_WGS84 = None →
  ∃ d1 d2 hp2 gcp2,
    showPoint id d = Returned tt d1 ∧
    fire (valueChanged Elevation v) d1 = Returned tt d2 ∧
    helper d2 = Some hp2 ∧
    hp2 !! id = Some gcp2 ∧
    kv.geo_loc gcp2 =
      kv.geo_point_2d (kv.Vector2d zero zero) kv.lat_lon_WGS84 ∧
    kv.is_empty (kv.geo_loc gcp2) = false ∧
    kv.elevation gcp2 = v ∧
    kv.is_geo_loc_user_provided gcp2 = true.
Proof.
  intros Hh Hid Hp Hzero.
  assert (point_of id d = Some gcp) as Hpo by (apply point_of_Some; eauto).
  assert ((displayed (kv.geo_loc gcp)).1 = zero_vector) as Hz.
  { unfold displayed, converted.
    destruct Hzero as [->| ->]; [done|]. by destruct (kv.is_empty _). }
  exists (shown id gcp d). rewrite showPoint_spec, Hpo.
  cbn [fire]. unfold mbind, M_bind at 1.
  destruct (user_edit Elevation v (shown id gcp d)) as [[] d1| |] eqn:Hd1;
    try done.
  revert Hd1. run. intros [= <-].
  unfold spp, mbind, M_bind, gets. rewrite setPointPosition_spec.
  cbn [helper currentPoint shown]. rewrite Hh.
  match goal with |- context [point_of id ?s] =>
    assert (point_of id s = Some gcp) as -> by (apply point_of_Some; eauto)
  end.
  eexists _, _, _. split; [done|]. split; [done|]. split; [done|].
  split; [apply lookup_insert_eq|].
  cbn. rewrite Hz. by cbn.
Qed.

(** X7.  What is copied is what was handed to the boxes: when
    [showPoint] displays a found point with a non-empty location, its
    only [setValue] calls are the last three it makes, one per box, and
    [copyLocation] then formats the very doubles passed in them, northing
    and easting with 9 decimals and elevation with 3, also when the
    conversion failed and zero was passed.  (What a box holds after Qt
    rounded the value is not part of the statement.) *)
Theorem copy_matches_display d hp id gcp :
  helper d = Some hp →
  id ≠ INVALID_POINT →
  hp !! id = Some gcp →
  kv.is_empty (kv.geo_loc gcp) = false →
  ∃ d1 warnings e n el,
    showPoint id d = Returned tt d1 ∧
    calls d1 = calls d ++ warnings
               ++ [setValue Easting e; setValue Northing n;
                   setValue Elevation el] ∧
    (∀ f, count (is_setValue f) warnings = 0) ∧
    ∀ northingFirst includeElevation : bool,
      ∃ d2,
        copyLocation northingFirst includeElevation d1 = Returned tt d2 ∧
        clipboard d2 =
          join ","
            ((if northingFirst
              then [QString_number n "f" 9; QString_number e "f" 9]
              else [QString_number e "f" 9; QString_number n "f" 9])
             ++ (if includeElevation
                 then [QString_number el "f" 3]
                 else [])).
Proof.
  intros Hh Hid Hp He.
  assert (point_of id d = Some gcp) as Hpo by (apply point_of_Some; eauto).
  exists (shown id gcp d), (displayed (kv.geo_loc gcp)).2,
         (kv.x (displayed (kv.geo_loc gcp)).1),
         (kv.y (displayed (kv.geo_loc gcp)).1), (kv.elevation gcp).
  rewrite showPoint_spec, Hpo. split; [done|]. split; [done|].
  split; [intros f; apply count_displayed; by destruct f|].
  intros northingFirst includeElevation.
  rewrite (copyLocation_spec _ _ (shown id gcp d) hp Hh).
  cbn [currentPoint shown]. rewrite Hp, He.
  eexists. split; [done|].
  unfold copied, location_text, displayed. rewrite He. by cbn.
Qed.

(** ** The list and the helper *)

(** X8.  When the list makes a row its current index, the panel shows the
    point of that row, makes it the current point and tells the helper
    once, as its last call, that this point is active; the
    [activePointChanged] signal the helper sends for it is then skipped.
    For an invalid index, or a row the model does not have, the panel is
    cleared and the helper, when there is one, is told that the sentinel
    is active; without a helper no call is made. *)
Theorem currentChanged_syncs i d :
  ∃ d',
    fire (currentChanged i) d = Returned tt d' ∧
    currentIndex (pointsList (UI d')) = i ∧
    (∀ row id hp gcp,
       i = Some row → model d !! row = Some id →
       helper d = Some hp → id ≠ INVALID_POINT → hp !! id = Some gcp →
       currentPoint d' = id ∧
       last (calls d') = Some (helper_setActivePoint id) ∧
       count is_setActivePoint (calls d')
         = S (count is_setActivePoint (calls d)) ∧
       on_activePointChanged id d' = Returned tt d') ∧
    (i = None ∨ (∃ row, i = Some row ∧ model d !! row = None) →
     currentPoint d' = INVALID_POINT ∧
     controls_disabled d' ∧
     (is_Some (helper d) →
      last (calls d') = Some (helper_setActivePoint INVALID_POINT) ∧
      on_activePointChanged INVALID_POINT d' = Returned tt d') ∧
     (helper d = None → calls d' = calls d)).
Proof.
  rewrite fire_currentChanged, on_currentChanged_spec.
  eexists. split; [reflexivity|]. split.
  { cbn [helper indexed]. unfold after_show.
    by destruct (helper d), (point_of _ _). }
  split.
  - intros row id hp gcp -> Hrow Hh Hid Hp.
    assert (selected_id (indexed (Some row) d) = id) as ->.
    { unfold selected_id. cbn. by rewrite Hrow. }
    assert (point_of id (indexed (Some row) d) = Some gcp) as Hpo.
    { apply point_of_Some. eauto. }
    unfold after_show. rewrite Hpo. cbn [helper indexed]. rewrite Hh.
    split; [done|]. split; [apply last_snoc|]. split.
    + cbn [calls logged shown indexed].
      rewrite !count_app, count_displayed by done. cbn. lia.
    + rewrite on_activePointChanged_spec. by rewrite decide_False by auto.
  - intros Hi.
    assert (selected_id (indexed i d) = INVALID_POINT) as ->.
    { unfold selected_id. cbn.
      destruct Hi as [->|(row & -> & Hrow)]; [done|]. by rewrite Hrow. }
    assert (point_of INVALID_POINT (indexed i d) = None) as Hpo.
    { apply point_of_None. by left. }
    unfold after_show. rewrite Hpo. cbn [helper indexed].
    destruct (helper d) as [hp|]; (split; [done|]);
      (split; [by repeat split|]); split.
    + intros _. split; [apply last_snoc|].
      rewrite on_activePointChanged_spec. by rewrite decide_False by auto.
    + done.
    + by intros [].
    + done.
Qed.

(** X9.  On a reachable panel an enabled delete action always reaches the
    helper: the slot makes the one call [removePoint] for the current
    point, which is not the sentinel; an enabled revert action calls
    [resetPoint] and then tells the model that the point was modified.
    Neither changes the widgets, the current point or the helper's
    points: the point stays current until the helper reports back.  With
    the sentinel current both slots do nothing. *)
Theorem enabled_delete_and_revert d :
  reachable d →
  (actionDelete (UI d) = true →
   currentPoint d ≠ INVALID_POINT ∧
   ∃ d', on_actionDelete d = Returned tt d' ∧
         calls d' = calls d ++ [helper_removePoint (currentPoint d)] ∧
         UI d' = UI d ∧ currentPoint d' = currentPoint d ∧
         helper d' = helper d) ∧
  (actionRevert (UI d) = true →
   currentPoint d ≠ INVALID_POINT ∧
   ∃ d', on_actionRevert d = Returned tt d' ∧
         calls d' = calls d ++ [helper_resetPoint (currentPoint d);
                                model_modifyPoint (currentPoint d)] ∧
         UI d' = UI d ∧ currentPoint d' = currentPoint d ∧
         helper d' = helper d) ∧
  (currentPoint d = INVALID_POINT →
   on_actionDelete d = Returned tt d ∧ on_actionRevert d = Returned tt d).
Proof.
  intros Hr. apply reachable_toggled in Hr as (_ & Hdel & Hrev & _ & _ & Hh).
  split; [|split].
  - intros Hon. rewrite Hon in Hdel. symmetry in Hdel.
    destruct (Hh Hdel) as [hp Hhp]. apply bool_decide_eq_true_1 in Hdel.
    split; [done|]. run. rewrite Hhp, decide_True by done.
    eexists. split; [reflexivity|]. by repeat split.
  - intros Hon. rewrite Hon in Hrev. symmetry in Hrev.
    destruct (Hh Hrev) as [hp Hhp]. apply bool_decide_eq_true_1 in Hrev.
    split; [done|]. run. rewrite Hhp, decide_True by done.
    eexists. split; [reflexivity|]. cbn. rewrite <- app_assoc.
    by repeat split.
  - intros Hc. run. rewrite Hc.
    destruct (helper d); [rewrite decide_False by auto|]; done.
Qed.

(** ** What is left alone *)

(** X10.  Showing and copying only read the points: [showPoint] leaves
    the helper's points, the rows of the model, the clipboard and the
    list's selection as they are, and [copyLocation], when it returns,
    leaves the helper's points, every widget, the current point and the
    model as they are. *)
Theorem show_and_copy_read_only d :
  (∀ id, ∃ d', showPoint id d = Returned tt d' ∧
               helper d' = helper d ∧
               model d' = model d ∧
               clipboard d' = clipboard d ∧
               pointsList (UI d') = pointsList (UI d)) ∧
  (∀ northingFirst includeElevation d',
     copyLocation northingFirst includeElevation d = Returned tt d' →
     helper d' = helper d ∧
     UI d' = UI d ∧
     copyLocationButton d' = copyLocationButton d ∧
     currentPoint d' = currentPoint d ∧
     model d' = model d).
Proof.
  split.
  - intros id. rewrite showPoint_spec. eexists. split; [done|].
    by destruct (point_of id d).
  - intros northingFirst includeElevation d'.
    destruct (helper d) as [hp|] eqn:Hh.
    + rewrite (copyLocation_spec _ _ _ _ Hh). intros [= <-].
      destruct (hp !! currentPoint d) as [gcp|]; [|done].
      by destruct (kv.is_empty _).
    + by rewrite (copyLocation_null _ _ _ Hh).
Qed.

(** X11.  An edit for a current point the helper no longer holds is
    dropped: the spin box keeps the value the user gave it, but no point
    is stored under that id, the helper's points stay as they are and the
    model is not told of a modification. *)
Theorem edit_of_missing_point d hp f v :
  helper d = Some hp →
  hp !! currentPoint d = None →
  ∃ d', fire (valueChanged f v) d = Returned tt d' ∧
        value (spinBox f (UI d')) = v ∧
        helper d' = Some hp ∧
        currentPoint d' = currentPoint d ∧
        calls d' = calls d.
Proof.
  intros Hh Hp. cbn [fire]. unfold mbind, M_bind at 1.
  destruct (user_edit f v d) as [[] d1| |] eqn:Hd1; try by destruct f.
  assert (helper d1 = Some hp ∧ currentPoint d1 = currentPoint d ∧
          calls d1 = calls d ∧ value (spinBox f (UI d1)) = v)
    as (Hh1 & Hc1 & Hk1 & Hv1).
  { revert Hd1. run. intros [= <-]. by destruct f. }
  unfold spp, mbind, M_bind, gets. rewrite setPointPosition_spec, Hh1.
  assert (point_of (currentPoint d1) d1 = None) as ->.
  { apply point_of_None. right; right. exists hp. by rewrite Hc1. }
  by exists d1.
Qed.

End Properties.

(** * The panel at work on the reference platform *)

Section Runs.
Local Open Scope Q_scope.

Example constructor_run : constructor (blank_ui true) "" = Returned tt constructed.
Proof. reflexivity. Qed.

Example setHelper_run :
  fire (setHelper_called three_points) constructed = Returned tt with_helper.
Proof. reflexivity. Qed.

Example showing_washington :
  currentPoint (showing 7) = 7%N ∧
  UI (showing 7) =
    MkUi (SpinBox (-7703 # 100) true) (SpinBox (38889 # 1000) true)
         (SpinBox (25 # 2) true) true true true true true true
         (SelectionModel None None) ∧
  calls (showing 7) =
    [model_setPointData; setValue Easting (-7703 # 100);
     setValue Northing (38889 # 1000); setValue Elevation (25 # 2);
     select None].
Proof. by vm_compute. Qed.

Lemma reachable_showing id : reachable (showing id).
Proof.
  assert (reachable with_helper) as Hw.
  { eapply (reachable_event constructed (setHelper_called three_points)).
    - by eapply (reachable_constructed (blank_ui true) "").
    - done.
    - done. }
  destruct (fire_returns with_helper (activePointChanged id) Hw eq_refl)
    as [d' Hd'].
  unfold showing. rewrite Hd'.
  by eapply (reachable_event with_helper (activePointChanged id)).
Qed.

Example showing_current :
  currentPoint (showing 7) = 7%N ∧ currentPoint (showing 8) = 8%N ∧
  currentPoint (showing 9) = 9%N ∧ currentPoint (showing 5) = INVALID_POINT.
Proof. by vm_compute. Qed.

(** Copying from the panel that shows the WGS84 point. *)
Lemma copyLocation_text_witness :
  ∃ d', copyLocation true true (showing 7) = Returned tt d' ∧
        clipboard d' = "38.889000000,-77.030000000,12.500" ∧
        calls d' = calls (showing 7)
                   ++ [clipboard_setText "38.889000000,-77.030000000,12.500"].
Proof.
  destruct (copyLocation_text (showing 7) three_points washington
              washington_wgs84 true true) as (d' & Hd' & Hclip & Hcalls);
    try (vm_compute; reflexivity).
  exists d'. split; [exact Hd'|]. rewrite Hclip, Hcalls.
  split; vm_compute; reflexivity.
Defined.

Example copyLocation_orders :
  (∃ d, copyLocation true false (showing 7) = Returned tt d ∧
        clipboard d = "38.889000000,-77.030000000") ∧
  (∃ d, copyLocation false false (showing 7) = Returned tt d ∧
        clipboard d = "-77.030000000,38.889000000") ∧
  (∃ d, copyLocation false true (showing 7) = Returned tt d ∧
        clipboard d = "-77.030000000,38.889000000,12.500").
Proof. repeat split; eexists; split; vm_compute; reflexivity. Qed.

(** Showing and copying the point whose coordinate system cannot be
    converted. *)
Lemma conversion_failure_contained_witness :
  (∃ d', showPoint 9 (showing 9) = Returned tt d' ∧
         value (easting (UI d')) = 0 ∧
         value (northing (UI d')) = 0 ∧
         value (elevation (UI d')) = 41 # 1 ∧
         calls d' = calls (showing 9)
                    ++ [qWarning [QStr "Geo-conversion from GCS";
                                  QInt 32618; QStr "failed"];
                        setValue Easting 0; setValue Northing 0;
                        setValue Elevation (41 # 1)]) ∧
  (∃ d', copyLocation true true (showing 9) = Returned tt d' ∧
         clipboard d' = "0.000000000,0.000000000,41.000").
Proof.
  destruct (conversion_failure_contained (showing 9) three_points 9 utm_point)
    as (Hshow & Hcopy & _); try (vm_compute; reflexivity).
  { by vm_compute. }
  split; [exact Hshow|].
  destruct (Hcopy eq_refl true true) as (d' & Hd' & Hclip & _).
  exists d'. split; [exact Hd'|]. rewrite Hclip. vm_compute. reflexivity.
Defined.

(** The point without a location. *)
Lemma showPoint_empty_location_witness :
  ∃ d', showPoint 8 with_helper = Returned tt d' ∧
        actionCopyLocationLatLon (UI d') = false ∧
        actionCopyLocationLatLonElev (UI d') = false ∧
        actionCopyLocationLonLat (UI d') = false ∧
        actionCopyLocationLonLatElev (UI d') = false ∧
        actionDelete (UI d') = true ∧
        actionRevert (UI d') = true ∧
        isEnabled (easting (UI d')) = true ∧
        isEnabled (northing (UI d')) = true ∧
        isEnabled (elevation (UI d')) = true.
Proof.
  apply (showPoint_empty_location with_helper three_points 8 unlocated);
    by vm_compute.
Defined.

Lemma copyLocation_without_location_witness :
  copyLocation true true (showing 8) = Returned tt (showing 8) ∧
  copyLocation false false (showing 5) = Returned tt (showing 5).
Proof.
  split.
  - apply (copyLocation_without_location (showing 8) three_points true true).
    + vm_compute; reflexivity.
    + right. exists unlocated. split; vm_compute; reflexivity.
  - apply (copyLocation_without_location (showing 5) three_points false false).
    + vm_compute; reflexivity.
    + left. vm_compute; reflexivity.
Defined.

Lemma pointChanged_other_witness :
  on_pointChanged 9 (showing 7) = Returned tt (showing 7) ∧
  fire (pointChanged 9) (showing 7) = Returned tt (showing 7).
Proof.
  apply (proj1 (pointChanged_other (showing 7) 9)). by vm_compute.
Defined.


(** Without a helper, [showPoint] of the sentinel leaves the constructed
    panel as it is, with every control disabled, and [copyLocation] on it
    dereferences the null helper. *)
Lemma copyLocation_null_helper :
  helper constructed = None ∧
  showPoint INVALID_POINT constructed = Returned tt constructed ∧
  currentPoint constructed = INVALID_POINT ∧
  controls_disabled constructed ∧
  copyLocation true false constructed = Undefined.
Proof. repeat split. Qed.

(** A helper that stores a point under the sentinel id: the panel shows
    no point, and [copyLocation] copies that point all the same. *)
Example copyLocation_sentinel_point :
  let d := MkView (blank_ui false) false [] (Some {[INVALID_POINT := washington]})
                  INVALID_POINT "" [] in
  showPoint INVALID_POINT d = Returned tt d ∧
  ∃ d', copyLocation true false d = Returned tt d' ∧
        clipboard d' = "38.889000000,-77.030000000".
Proof. split; [|eexists; split]; vm_compute; reflexivity. Qed.

(** Editing the elevation of the shown point. *)
Lemma setPointPosition_writes_witness :
  ∃ d' hp' gcp',
    fire (valueChanged Elevation (20 # 1)) (showing 7) = Returned tt d' ∧
    helper d' = Some hp' ∧
    hp' !! 7%N = Some gcp' ∧
    kv.geo_loc gcp' =
      kv.geo_point_2d (kv.Vector2d (-7703 # 100) (38889 # 1000))
                      kv.lat_lon_WGS84 ∧
    kv.elevation gcp' = 20 # 1 ∧
    kv.is_geo_loc_user_provided gcp' = true ∧
    hp' !! 8%N = Some unlocated ∧
    calls d' = calls (showing 7) ++ [model_modifyPoint 7].
Proof.
  destruct (setPointPosition_writes (showing 7) three_points washington
              Elevation (20 # 1))
    as (d1 & d' & hp' & gcp' & Hd1 & _ & _ & Hfire & Hh & Hp & Hloc & Helev
        & Huser & Hother & Hcalls);
    try (vm_compute; reflexivity).
  { by vm_compute. }
  vm_compute in Hd1. injection Hd1 as <-.
  exists d', hp', gcp'. split; [exact Hfire|]. split; [exact Hh|].
  split; [exact Hp|]. split; [exact Hloc|]. split; [exact Helev|].
  split; [exact Huser|]. split; [|exact Hcalls].
  rewrite Hother; [vm_compute; reflexivity | by vm_compute].
Defined.

(** On the list that shows the three points with row 0 current: hearing
    of point 7 while it is shown, and switching to point 9 of row 2. *)
Lemma activePointChanged_once_witness :
  currentPoint (selecting 0) = 7%N ∧
  on_activePointChanged 7 (selecting 0) = Returned tt (selecting 0) ∧
  ∃ d', on_activePointChanged 9 (selecting 0) = Returned tt d' ∧
        selection (pointsList (UI d')) = Some 2%nat ∧
        currentIndex (pointsList (UI d')) = Some 0%nat ∧
        currentPoint d' = 9%N ∧
        count is_select (calls d')
          = S (count is_select (calls (selecting 0))) ∧
        count (is_setValue Easting) (calls d')
          = S (count (is_setValue Easting) (calls (selecting 0))) ∧
        on_activePointChanged 9 d' = Returned tt d'.
Proof.
  split; [vm_compute; reflexivity|]. split.
  - apply (proj1 (activePointChanged_once (selecting 0) 7)).
    vm_compute; reflexivity.
  - destruct (proj2 (activePointChanged_once (selecting 0) 9)
                ltac:(by vm_compute))
      as (d1 & d' & index & _ & _ & _ & Hact & _ & _ & _ & Hcount
          & _ & Hfound & _).
    destruct (Hfound three_points utm_point
                ltac:(vm_compute; reflexivity) ltac:(by vm_compute)
                ltac:(vm_compute; reflexivity))
      as (Hcur & Hwrites & Hagain).
    assert (d' = notified 9 (selecting 0)) as Hd'.
    { assert (on_activePointChanged 9 (selecting 0)
              = Returned tt (notified 9 (selecting 0))) as Hn
        by (vm_compute; reflexivity).
      rewrite Hn in Hact. by injection Hact. }
    exists d'. split; [exact Hact|].
    split; [rewrite Hd'; vm_compute; reflexivity|].
    split; [rewrite Hd'; vm_compute; reflexivity|].
    split; [exact Hcur|]. split; [exact Hcount|].
    split; [exact (Hwrites Easting)|exact Hagain].
Defined.

(** The helper announces an id it holds no point for: no spin box is
    written, the panel is cleared, and the same announcement runs the
    slot once more. *)
Lemma activePointChanged_unknown_id :
  currentPoint (selecting 0) = 7%N ∧
  on_activePointChanged 5 (selecting 0)
    = Returned tt (notified 5 (selecting 0)) ∧
  calls (notified 5 (selecting 0)) = calls (selecting 0) ++ [select None] ∧
  currentPoint (notified 5 (selecting 0)) = INVALID_POINT ∧
  on_activePointChanged 5 (notified 5 (selecting 0))
    = Returned tt (notified 5 (notified 5 (selecting 0))) ∧
  calls (notified 5 (notified 5 (selecting 0)))
    = calls (selecting 0) ++ [select None; select None].
Proof.
  do 5 (split; [vm_compute; reflexivity|]). vm_compute; reflexivity.
Qed.

Lemma copyLocation_needs_helper_witness :
  copyLocation true false constructed = Undefined ∧
  on_actionDelete constructed = Returned tt constructed ∧
  on_actionRevert constructed = Returned tt constructed ∧
  spp constructed = Returned tt constructed ∧
  ∃ d', copyLocation true false with_helper = Returned tt d'.
Proof.
  destruct (copyLocation_needs_helper constructed)
    as (Hcopy & _ & _ & _ & _ & Hnull).
  destruct (Hnull eq_refl) as (Hdel & Hrev & Hspp & _).
  split; [apply (Hcopy true false); reflexivity|].
  split; [exact Hdel|]. split; [exact Hrev|]. split; [exact Hspp|].
  apply (proj1 (copyLocation_needs_helper with_helper) true false).
  vm_compute. eauto.
Defined.

Lemma copyLocationButton_enabled_witness :
  reachable (showing 8) ∧
  copyLocationButton (showing 8) = true ∧
  currentPoint (showing 8) = 8%N ∧
  (copyLocationButton (showing 8) = true ↔
   currentPoint (showing 8) ≠ INVALID_POINT) ∧
  copyAction true false (UI (showing 8)) = false.
Proof.
  split; [apply reachable_showing|].
  split; [vm_compute; reflexivity|].
  split; [vm_compute; reflexivity|].
  split; [|vm_compute; reflexivity].
  apply copyLocationButton_enabled, reachable_showing.
Defined.

(** *** Further runs *)

Lemma reachable_event_returns_witness :
  ∃ d', fire (actionCopyLocation_triggered true true) (showing 7)
        = Returned tt d' ∧
        reachable d'.
Proof.
  apply (reachable_event_returns (showing 7)
           (actionCopyLocation_triggered true true)).
  - apply reachable_showing.
  - vm_compute; reflexivity.
Defined.

Lemma reachable_two_states_witness :
  reachable (showing 8) ∧
  currentPoint (showing 8) = 8%N ∧
  isEnabled (easting (UI (showing 8))) = true ∧
  actionDelete (UI (showing 8)) = true ∧
  copyLocationButton (showing 8) = true ∧
  is_Some (helper (showing 8)).
Proof.
  pose proof (reachable_two_states (showing 8) (reachable_showing 8))
    as (He & _ & _ & Hd & _ & Hb & _ & Hh).
  split; [apply reachable_showing|]. split; [vm_compute; reflexivity|].
  split; [rewrite He; vm_compute; reflexivity|].
  split; [rewrite Hd; vm_compute; reflexivity|].
  split; [rewrite Hb; vm_compute; reflexivity|].
  apply Hh. by vm_compute.
Defined.

Lemma setHelper_installs_witness :
  setHelper None constructed = Undefined ∧
  ∃ d', setHelper (Some three_points) constructed = Returned tt d' ∧
        helper d' = Some three_points ∧
        currentPoint d' = INVALID_POINT ∧
        calls d' = [model_setPointData].
Proof.
  destruct (setHelper_installs constructed) as (Hnull & Hset & _).
  split; [exact Hnull|].
  destruct (Hset three_points) as (d' & Hd' & Hh & _ & _ & Hc & _ & Hcalls).
  exists d'. split; [exact Hd'|]. split; [exact Hh|].
  split; [exact Hc|exact Hcalls].
Defined.

Lemma refresh_is_stable_witness :
  ∃ d2, on_pointsRecomputed (displaying 9) = Returned tt d2 ∧
        UI d2 = UI (displaying 9) ∧
        currentPoint d2 = 9%N ∧
        helper d2 = Some three_points.
Proof.
  destruct (refresh_is_stable with_helper 9 (displaying 9))
    as (d2 & _ & Hd2 & _ & Hui & _ & _ & _ & Hcur & _ & Hh & _).
  { vm_compute; reflexivity. }
  exists d2. split; [exact Hd2|]. split; [exact Hui|].
  split; [rewrite Hcur|rewrite Hh]; vm_compute; reflexivity.
Defined.

Lemma edit_then_refresh_witness :
  ∃ d1 d2,
    spp (showing 7) = Returned tt d1 ∧
    on_pointChanged 7 d1 = Returned tt d2 ∧
    value (easting (UI d2)) = -7703 # 100 ∧
    value (northing (UI d2)) = 38889 # 1000 ∧
    value (elevation (UI d2)) = 25 # 2 ∧
    actionCopyLocationLatLon (UI d2) = true.
Proof.
  destruct (edit_then_refresh (showing 7) three_points washington 0)
    as (d1 & d2 & Hd1 & Hd2 & He & Hn & Hel & Hcopy & _);
    try (vm_compute; reflexivity).
  { by vm_compute. }
  exists d1, d2. split; [exact Hd1|]. split; [exact Hd2|].
  split; [rewrite He; vm_compute; reflexivity|].
  split; [rewrite Hn; vm_compute; reflexivity|].
  split; [rewrite Hel; vm_compute; reflexivity|].
  exact (Hcopy true false).
Defined.

Lemma edit_after_zero_display_witness :
  ∃ d1 d2 hp2 gcp2,
    showPoint 9 with_helper = Returned tt d1 ∧
    fire (valueChanged Elevation (50 # 1)) d1 = Returned tt d2 ∧
    helper d2 = Some hp2 ∧
    hp2 !! 9%N = Some gcp2 ∧
    kv.geo_loc gcp2 = kv.geo_point_2d (kv.Vector2d 0 0) kv.lat_lon_WGS84 ∧
    kv.elevation gcp2 = 50 # 1.
Proof.
  destruct (edit_after_zero_display with_helper three_points 9 utm_point
              (50 # 1))
    as (d1 & d2 & hp2 & gcp2 & Hd1 & Hd2 & Hh & Hp & Hloc & _ & Hel & _);
    try (vm_compute; reflexivity).
  { by vm_compute. }
  { right. vm_compute; reflexivity. }
  exists d1, d2, hp2, gcp2. by repeat split.
Defined.

Lemma copy_matches_display_witness :
  ∃ d1 d2 e n,
    showPoint 7 with_helper = Returned tt d1 ∧
    copyLocation true false d1 = Returned tt d2 ∧
    clipboard d2 = join "," [QString_number n "f" 9; QString_number e "f" 9] ∧
    clipboard d2 = "38.889000000,-77.030000000".
Proof.
  destruct (copy_matches_display with_helper three_points 7 washington
              ltac:(vm_compute; reflexivity) ltac:(by vm_compute)
              ltac:(vm_compute; reflexivity) ltac:(vm_compute; reflexivity))
    as (d1 & warnings & e & n & el & Hd1 & _ & _ & Hcopy).
  destruct (Hcopy true false) as (d2 & Hd2 & Hclip).
  exists d1, d2, e, n. split; [exact Hd1|]. split; [exact Hd2|].
  split; [exact Hclip|].
  assert (d1 = displaying 7) as Hd.
  { assert (showPoint 7 with_helper = Returned tt (displaying 7)) as Hs
      by (vm_compute; reflexivity).
    rewrite Hs in Hd1. by injection Hd1. }
  assert (∃ x, copyLocation true false (displaying 7) = Returned tt x ∧
               clipboard x = "38.889000000,-77.030000000")
    as (x & Hx & Hcx) by (eexists; split; vm_compute; reflexivity).
  rewrite Hd, Hx in Hd2. injection Hd2 as <-. exact Hcx.
Defined.

Lemma currentChanged_syncs_witness :
  ∃ d', fire (currentChanged (Some 1%nat)) with_rows = Returned tt d' ∧
        currentPoint d' = 8%N ∧
        last (calls d') = Some (helper_setActivePoint 8) ∧
        on_activePointChanged 8 d' = Returned tt d'.
Proof.
  destruct (currentChanged_syncs (Some 1%nat) with_rows)
    as (d' & Hd' & _ & Hfound & _).
  destruct (Hfound 1%nat 8%N three_points unlocated
              eq_refl ltac:(vm_compute; reflexivity)
              ltac:(vm_compute; reflexivity) ltac:(by vm_compute)
              ltac:(vm_compute; reflexivity))
    as (Hcur & Hlast & _ & Hecho).
  exists d'. by repeat split.
Defined.

Lemma enabled_delete_and_revert_witness :
  ∃ d' d'',
    on_actionDelete (showing 7) = Returned tt d' ∧
    calls d' = calls (showing 7) ++ [helper_removePoint 7] ∧
    on_actionRevert (showing 7) = Returned tt d'' ∧
    calls d'' = calls (showing 7)
                ++ [helper_resetPoint 7; model_modifyPoint 7].
Proof.
  destruct (enabled_delete_and_revert (showing 7) (reachable_showing 7))
    as (Hdel & Hrev & _).
  destruct (Hdel ltac:(vm_compute; reflexivity))
    as (_ & d' & Hd' & Hcalls & _).
  destruct (Hrev ltac:(vm_compute; reflexivity))
    as (_ & d'' & Hd'' & Hcalls' & _).
  exists d', d''. by repeat split.
Defined.

Lemma show_and_copy_read_only_witness :
  ∃ d', showPoint 8 (showing 7) = Returned tt d' ∧
        helper d' = Some three_points ∧
        clipboard d' = "".
Proof.
  destruct (proj1 (show_and_copy_read_only (showing 7)) 8%N)
    as (d' & Hd' & Hh & _ & Hclip & _).
  exists d'. split; [exact Hd'|].
  split; [rewrite Hh|rewrite Hclip]; vm_compute; reflexivity.
Defined.

Lemma edit_of_missing_point_witness :
  currentPoint after_removal = 7%N ∧
  ∃ d', fire (valueChanged Easting (1 # 1)) after_removal = Returned tt d' ∧
        value (easting (UI d')) = 1 # 1 ∧
        helper d' = Some two_points ∧
        calls d' = calls after_removal.
Proof.
  split; [vm_compute; reflexivity|].
  destruct (edit_of_missing_point after_removal two_points
              Easting (1 # 1)
              ltac:(vm_compute; reflexivity) ltac:(vm_compute; reflexivity))
    as (d' & Hd' & Hv & Hh & _ & Hcalls).
  exists d'. by repeat split.
Defined.

End Runs.
